(** * Incremental State Transfer (galera/src/ist.cpp)

    A shallow embedding of the IST receiver, sender and sender map of
    [galera/src/ist.cpp], and the properties of the IST specification
    proved (or refuted) on it.

    Conventions of the embedding.
    - The file is modelled as it builds with [PXC] defined: the
      [interrupted_] flag and the branches guarded by [#ifdef PXC] are
      present.  Instrumentation ([HAVE_PSI_INTERFACE]) and logging have no
      effect on the state and are left out.
    - [assert] is compiled out (release build, [NDEBUG]); what an assertion
      says appears, where a property needs it, as a hypothesis.
    - [wsrep_seqno_t] is [int64_t]: a [Z] with the wrap-around of the
      arithmetic written out with [wrap64].
    - A C++ exception is a result value; the code carried by
      [asio::system_error] or [gu::Exception] is a [Z].
    - The network, the write-set cache, the apply handler and the thread
      library are the environment: what they answer is an input of the
      model, what the code asks of them is an [Event] of its trace. *)

From Stdlib Require Import ZArith List Bool String Lia.
From stdpp Require Import base gmap strings list pretty.

Local Open Scope Z_scope.

(** ** Integers and error codes *)

Definition wsrep_seqno_t : Type := Z.

Definition INT64_MAX : Z := 2 ^ 63 - 1.
Definition INT64_MIN : Z := - 2 ^ 63.

(** Two's complement reduction of an integer to [int64_t]. *)
Definition wrap64 (z : Z) : Z := (z + 2 ^ 63) mod 2 ^ 64 - 2 ^ 63.

(** [static_cast<size_t>] of a 64-bit value. *)
Definition to_size_t (z : Z) : Z := z mod 2 ^ 64.

Definition WSREP_SEQNO_UNDEFINED : wsrep_seqno_t := -1.

(** errno values of <errno.h> (Linux). *)
Definition EINTR  : Z := 4.
Definition EINVAL : Z := 22.
Definition EPROTO : Z := 71.

(** ** Exceptions

    The exception types [ist.cpp] throws and catches; [gu::Exception] and
    [asio::system_error] carry a code. *)
Inductive exn : Type :=
| gu_Exception (errno : Z)
| asio_system_error (code : Z)
| gu_NotSet
| gu_NotFound.

Inductive result (A : Type) : Type :=
| ok (a : A)
| throw (e : exn).
Arguments ok {A} a.
Arguments throw {A} e.

(** ** Actions, frames and events *)

(** Modelled from the spec: [gcs_act_type] is declared in gcs.hpp, which is
    not part of the sources at hand; the data model of the specification
    gives a write-set action the kinds WRITESET, CCHANGE and UNKNOWN. *)
Inductive gcs_act_type : Type :=
| GCS_ACT_WRITESET
| GCS_ACT_CCHANGE
| GCS_ACT_UNKNOWN.

#[global] Instance gcs_act_type_eq_dec : EqDecision gcs_act_type.
Proof. solve_decision. Defined.

Record gcs_action : Type := mk_action {
  act_seqno_g : wsrep_seqno_t;
  act_type    : gcs_act_type;
  act_size    : Z;
  act_buf     : list Byte.byte
}.

(** Ctrl codes of the wire protocol (specification, data model). *)
Module Ctrl.
Definition C_OK  : Z := 0.
Definition C_EOF : Z := 1.
End Ctrl.

(** Everything the code asks of its collaborators, in the order asked. *)
Inductive Event : Type :=
| ist_trx (act : gcs_action) (must_apply preload : bool)
| ist_cc  (act : gcs_action) (must_apply preload : bool)
| ist_end (ec : Z)
| seqno_unlock
| acceptor_listen
| acceptor_close
| socket_close
| thread_create
| thread_join
| loopback_connect.

(** The frames an event hands to the apply handler. *)
Definition dispatched (e : Event) : option (gcs_action * bool * bool) :=
  match e with
  | ist_trx a m p => Some (a, m, p)
  | ist_cc a m p => Some (a, m, p)
  | _ => None
  end.

Definition dispatches (evs : list Event) : list (gcs_action * bool * bool) :=
  omap dispatched evs.

Definition dispatched_seqnos (evs : list Event) : list wsrep_seqno_t :=
  (fun d => act_seqno_g (fst (fst d))) <$> dispatches evs.

Definition dispatched_preloads (evs : list Event) : list bool :=
  snd <$> dispatches evs.

Definition ends (evs : list Event) : list Z :=
  omap (fun e => match e with ist_end ec => Some ec | _ => None end) evs.

(** ** Configuration *)

(** Modelled from the spec: [gu::Config] is a string-to-string registry
    (gu_config.hpp is not part of the sources at hand); [get] throws
    [gu::NotSet] for a key without a value, which is [None] here. *)
Module Config.
Definition get (conf : gmap string string) (key : string) : option string :=
  conf !! key.
Definition has (conf : gmap string string) (key : string) : bool :=
  bool_decide (is_Some (conf !! key)).
Definition set (conf : gmap string string) (key value : string)
  : gmap string string :=
  <[key := value]> conf.
End Config.

Definition CONF_KEEP_KEYS : string := "ist.keep_keys".
Definition RECV_ADDR : string := "ist.recv_addr".
Definition RECV_BIND : string := "ist.recv_bind".

(** Modelled from the spec: the keys of galera_common.hpp and gu_asio.hpp
    (not part of the sources at hand) under the names the specification
    lists among the configuration keys. *)
Definition BASE_HOST_KEY : string := "base_host".
Definition BASE_PORT_KEY : string := "base_port".
Definition ssl_key : string := "socket.ssl_key".

(** ** Receiver *)

Record Receiver : Type := mk_receiver {
  recv_addr_     : string;
  recv_bind_     : string;
  first_seqno_   : wsrep_seqno_t;
  last_seqno_    : wsrep_seqno_t;
  current_seqno_ : wsrep_seqno_t;
  conf_          : gmap string string;
  source_id_     : Z;
  error_code_    : Z;
  version_       : Z;
  use_ssl_       : bool;
  running_       : bool;
  interrupted_   : bool;
  ready_         : bool
}.

Definition set_recv_addr (v : string) (r : Receiver) : Receiver :=
  mk_receiver v (recv_bind_ r) (first_seqno_ r) (last_seqno_ r)
    (current_seqno_ r) (conf_ r) (source_id_ r) (error_code_ r) (version_ r)
    (use_ssl_ r) (running_ r) (interrupted_ r) (ready_ r).
Definition set_recv_bind (v : string) (r : Receiver) : Receiver :=
  mk_receiver (recv_addr_ r) v (first_seqno_ r) (last_seqno_ r)
    (current_seqno_ r) (conf_ r) (source_id_ r) (error_code_ r) (version_ r)
    (use_ssl_ r) (running_ r) (interrupted_ r) (ready_ r).
Definition set_first_seqno (v : Z) (r : Receiver) : Receiver :=
  mk_receiver (recv_addr_ r) (recv_bind_ r) v (last_seqno_ r)
    (current_seqno_ r) (conf_ r) (source_id_ r) (error_code_ r) (version_ r)
    (use_ssl_ r) (running_ r) (interrupted_ r) (ready_ r).
Definition set_last_seqno (v : Z) (r : Receiver) : Receiver :=
  mk_receiver (recv_addr_ r) (recv_bind_ r) (first_seqno_ r) v
    (current_seqno_ r) (conf_ r) (source_id_ r) (error_code_ r) (version_ r)
    (use_ssl_ r) (running_ r) (interrupted_ r) (ready_ r).
Definition set_current_seqno (v : Z) (r : Receiver) : Receiver :=
  mk_receiver (recv_addr_ r) (recv_bind_ r) (first_seqno_ r) (last_seqno_ r)
    v (conf_ r) (source_id_ r) (error_code_ r) (version_ r)
    (use_ssl_ r) (running_ r) (interrupted_ r) (ready_ r).
Definition set_conf (v : gmap string string) (r : Receiver) : Receiver :=
  mk_receiver (recv_addr_ r) (recv_bind_ r) (first_seqno_ r) (last_seqno_ r)
    (current_seqno_ r) v (source_id_ r) (error_code_ r) (version_ r)
    (use_ssl_ r) (running_ r) (interrupted_ r) (ready_ r).
Definition set_source_id (v : Z) (r : Receiver) : Receiver :=
  mk_receiver (recv_addr_ r) (recv_bind_ r) (first_seqno_ r) (last_seqno_ r)
    (current_seqno_ r) (conf_ r) v (error_code_ r) (version_ r)
    (use_ssl_ r) (running_ r) (interrupted_ r) (ready_ r).
Definition set_error_code (v : Z) (r : Receiver) : Receiver :=
  mk_receiver (recv_addr_ r) (recv_bind_ r) (first_seqno_ r) (last_seqno_ r)
    (current_seqno_ r) (conf_ r) (source_id_ r) v (version_ r)
    (use_ssl_ r) (running_ r) (interrupted_ r) (ready_ r).
Definition set_version (v : Z) (r : Receiver) : Receiver :=
  mk_receiver (recv_addr_ r) (recv_bind_ r) (first_seqno_ r) (last_seqno_ r)
    (current_seqno_ r) (conf_ r) (source_id_ r) (error_code_ r) v
    (use_ssl_ r) (running_ r) (interrupted_ r) (ready_ r).
Definition set_use_ssl (v : bool) (r : Receiver) : Receiver :=
  mk_receiver (recv_addr_ r) (recv_bind_ r) (first_seqno_ r) (last_seqno_ r)
    (current_seqno_ r) (conf_ r) (source_id_ r) (error_code_ r) (version_ r)
    v (running_ r) (interrupted_ r) (ready_ r).
Definition set_running (v : bool) (r : Receiver) : Receiver :=
  mk_receiver (recv_addr_ r) (recv_bind_ r) (first_seqno_ r) (last_seqno_ r)
    (current_seqno_ r) (conf_ r) (source_id_ r) (error_code_ r) (version_ r)
    (use_ssl_ r) v (interrupted_ r) (ready_ r).
Definition set_interrupted (v : bool) (r : Receiver) : Receiver :=
  mk_receiver (recv_addr_ r) (recv_bind_ r) (first_seqno_ r) (last_seqno_ r)
    (current_seqno_ r) (conf_ r) (source_id_ r) (error_code_ r) (version_ r)
    (use_ssl_ r) (running_ r) v (ready_ r).
Definition set_ready (v : bool) (r : Receiver) : Receiver :=
  mk_receiver (recv_addr_ r) (recv_bind_ r) (first_seqno_ r) (last_seqno_ r)
    (current_seqno_ r) (conf_ r) (source_id_ r) (error_code_ r) (version_ r)
    (use_ssl_ r) (running_ r) (interrupted_ r) v.

(** [gu::Progress<wsrep_seqno_t>]: the total it was sized to and the count
    reported so far. *)
Record Progress : Type := mk_progress {
  progress_total   : Z;
  progress_current : Z
}.

Definition progress_update (n : Z) (p : Progress) : Progress :=
  mk_progress (progress_total p) (progress_current p + n).

(** What [Proto::recv_ordered] hands back: a frame, or an exception
    ([asio::system_error] or [gu::Exception]; both handlers of [run] store
    the code in [ec]). *)
Inductive recv_result : Type :=
| recv_frame (act : gcs_action) (preload : bool)
| recv_throw (code : Z).

(** The answers of the environment to the receive thread, one per blocking
    call.  [in_recv res unser hres]: [recv_ordered] gives [res]; if the
    write-set is deserialised, [unser = Some e] makes
    [TrxHandleSlave::unserialize] throw [e]; [hres = Some e] makes the
    handler callback throw [e] after it was invoked. *)
Inductive Input : Type :=
| in_accept (err : option Z)
| in_handshake (err : option Z)
| in_wakeup
| in_recv (res : recv_result) (unser hres : option Z).

(** Where the receive thread stands: not created, in one of the blocking
    calls of [run], ended, or dead ([Uncaught]: an exception has left the
    thread function; [Crashed]: a null pointer was dereferenced).
    [Streaming] carries the locals of the loop, [preload_started] and
    [progress] ([None] is the null pointer). *)
Inductive pc : Type :=
| NoThread
| Accepting
| Handshaking
| WaitingForSST
| Streaming (preload_started : bool) (progress : option Progress)
| Terminated
| Uncaught (code : Z)
| Crashed.

Module Receiver.

(** The member initialisers of [Receiver::Receiver] (ist.cpp:97-130). *)
Definition init (conf : gmap string string) : Receiver :=
  {| recv_addr_ := ""; recv_bind_ := "";
     first_seqno_ := WSREP_SEQNO_UNDEFINED;
     last_seqno_ := WSREP_SEQNO_UNDEFINED;
     current_seqno_ := WSREP_SEQNO_UNDEFINED;
     conf_ := conf; source_id_ := 0; error_code_ := 0; version_ := -1;
     use_ssl_ := false; running_ := false; interrupted_ := false;
     ready_ := false |}.

(** The code from label [err:] to the end of [run] (ist.cpp:702-728). *)
Definition run_err (r : Receiver) (ec : Z) : Receiver * list Event :=
  let r1 := set_running false r in
  let ec1 :=
    if (0 <? last_seqno_ r1) && negb (ec =? EINTR)
       && (current_seqno_ r1 <? last_seqno_ r1)
    then EPROTO else ec in
  let r2 := if negb (ec1 =? EINTR) then set_error_code ec1 r1 else r1 in
  (r2, [seqno_unlock; socket_close; ist_end ec1]).

(** What one turn of the [while (true)] loop leads to. *)
Inductive turn : Type :=
| turn_break
| turn_err (r : Receiver) (ec : Z) (evs : list Event)
| turn_next (r : Receiver) (preload_started : bool) (progress : Progress)
            (evs : list Event).

(** The [switch (act.type)] of the loop, with [must_apply] and [preload]
    computed just before it (ist.cpp:638-682).  The last branch is the
    [default: assert(0)]; [run_frame] never takes it, an action of kind
    UNKNOWN has left the loop before. *)
Definition run_dispatch (r : Receiver) (preload_started : bool)
    (progress : Progress) (act : gcs_action) (preload : bool)
    (unser hres : option Z) : turn :=
  let must_apply := current_seqno_ r >=? first_seqno_ r in
  let preload_started :=
    if preload && negb preload_started then true else preload_started in
  let after_call (e : Event) :=
    match hres with
    | Some code => turn_err r code [e]
    | None => turn_next r preload_started progress [e]
    end in
  match act_type act with
  | GCS_ACT_WRITESET =>
      if 0 <? act_size act then
        match unser with
        | Some code => turn_err r code []
        | None => after_call (ist_trx act must_apply preload)
        end
      else after_call (ist_trx act must_apply preload)
  | GCS_ACT_CCHANGE => after_call (ist_cc act must_apply preload)
  | GCS_ACT_UNKNOWN => turn_next r preload_started progress []
  end.

(** The body of the loop after [recv_ordered] returned [(act, preload)]
    (ist.cpp:488-541, then [run_dispatch]).  [None]: [progress->update(1)]
    is called through the null pointer. *)
Definition run_frame (r : Receiver) (preload_started : bool)
    (progress : option Progress) (act : gcs_action) (preload : bool)
    (unser hres : option Z) : option turn :=
  match act_type act with
  | GCS_ACT_UNKNOWN => Some turn_break
  | _ =>
      if current_seqno_ r =? WSREP_SEQNO_UNDEFINED then
        if first_seqno_ r <? act_seqno_g act then
          Some (turn_err r EINVAL [])
        else
          let r1 := set_current_seqno (act_seqno_g act) r in
          let pr := mk_progress
                      (wrap64 (wrap64 (last_seqno_ r1 - current_seqno_ r1) + 1))
                      0 in
          if negb (act_seqno_g act =? current_seqno_ r1) then
            Some (turn_err r1 EINVAL [])
          else Some (run_dispatch r1 preload_started pr act preload unser hres)
      else
        match progress with
        | None => None
        | Some pr =>
            let r1 := set_current_seqno (wrap64 (current_seqno_ r + 1)) r in
            let pr1 := progress_update 1 pr in
            if negb (act_seqno_g act =? current_seqno_ r1) then
              Some (turn_err r1 EINVAL [])
            else
              Some (run_dispatch r1 preload_started pr1 act preload unser hres)
        end
  end.

(** One step of the receive thread: [Receiver::run] (ist.cpp:398-728) from
    the blocking call the thread stands at to the next one.  A failed
    [accept] is rethrown outside every [try] and leaves the thread function
    ([Uncaught]); the end of the stream before any data frame calls
    [progress->finish()] through the null pointer ([Crashed]).  [None]: the
    thread cannot move (it is blocked in the rendezvous, it has ended, or
    the input answers another call than the one the thread is in). *)
Definition step (r : Receiver) (p : pc) (i : Input)
  : option (Receiver * pc * list Event) :=
  match p, i with
  | Accepting, in_accept None => Some (r, Handshaking, [acceptor_close])
  | Accepting, in_accept (Some code) => Some (r, Uncaught code, [])
  | Handshaking, in_handshake None => Some (r, WaitingForSST, [])
  | Handshaking, in_handshake (Some code) =>
      let '(r1, evs) := run_err r code in Some (r1, Terminated, evs)
  | WaitingForSST, in_wakeup =>
      if negb (ready_ r) && negb (interrupted_ r) then None
      else if interrupted_ r then
        let '(r1, evs) := run_err r 0 in Some (r1, Terminated, evs)
      else
        Some (set_current_seqno WSREP_SEQNO_UNDEFINED r,
              Streaming false None, [])
  | Streaming _ _, in_recv (recv_throw code) _ _ =>
      let '(r1, evs) := run_err r code in Some (r1, Terminated, evs)
  | Streaming ps pg, in_recv (recv_frame act preload) unser hres =>
      match run_frame r ps pg act preload unser hres with
      | None => Some (r, Crashed, [])
      | Some turn_break =>
          match pg with
          | None => Some (r, Crashed, [])
          | Some _ =>
              let '(r1, evs) := run_err r 0 in Some (r1, Terminated, evs)
          end
      | Some (turn_err r1 ec evs) =>
          let '(r2, evs2) := run_err r1 ec in
          Some (r2, Terminated, evs ++ evs2)
      | Some (turn_next r1 ps1 pg1 evs) =>
          Some (r1, Streaming ps1 (Some pg1), evs)
      end
  | _, _ => None
  end.

(** The receive thread run over a list of answers; the events add up. *)
Fixpoint run (r : Receiver) (p : pc) (ins : list Input)
  : option (Receiver * pc * list Event) :=
  match ins with
  | [] => Some (r, p, [])
  | i :: ins' =>
      match step r p i with
      | None => None
      | Some (r1, p1, evs1) =>
          match run r1 p1 ins' with
          | None => None
          | Some (r2, p2, evs2) => Some (r2, p2, evs1 ++ evs2)
          end
      end
  end.

(** [Receiver::ready] (ist.cpp:731-740). *)
Definition ready (first : wsrep_seqno_t) (r : Receiver) : Receiver :=
  set_ready true (set_first_seqno first r).

(** [Receiver::interrupt] (ist.cpp:789-840): a connection to the
    receiver's own listener.
    It writes no field of the receiver.  [resolve_err]: the resolver
    fails, which is rethrown as [gu::Exception] and leaves [interrupt];
    every [asio::system_error] after that is swallowed. *)
Definition interrupt (r : Receiver) (resolve_err : option Z)
  : result (list Event) :=
  match resolve_err with
  | Some code => throw (gu_Exception code)
  | None => ok [loopback_connect]
  end.

(** [gu_thread_join(thread_, 0)]: the caller waits until the receive
    thread has ended; [ins] are the answers the thread gets meanwhile.
    Without a thread the call fails at once (the code logs a warning).
    [None]: the thread does not end on [ins], the join does not return. *)
Definition join (r : Receiver) (p : pc) (ins : list Input)
  : option (Receiver * pc * list Event) :=
  match p with
  | NoThread => Some (r, p, [])
  | _ =>
      match run r p ins with
      | Some (r1, Terminated, evs) => Some (r1, Terminated, evs)
      | _ => None
      end
  end.

(** [Receiver::finished] (ist.cpp:745-786); [ins] is what the receive
    thread is answered while the caller waits in the join. *)
Definition finished (r : Receiver) (p : pc) (resolve_err : option Z)
    (ins : list Input)
  : option (Receiver * pc * list Event * result wsrep_seqno_t) :=
  if String.eqb (recv_addr_ r) "" then
    Some (r, p, [], ok (current_seqno_ r))
  else
    match interrupt r resolve_err with
    | throw e => Some (r, p, [], throw e)
    | ok evs0 =>
        let r1 := if negb (ready_ r) then set_interrupted true r else r in
        match join r1 p ins with
        | None => None
        | Some (r2, p2, evs) =>
            let r3 := set_recv_addr "" (set_running false r2) in
            Some (r3, p2, evs0 ++ evs ++ [thread_join; acceptor_close],
                  ok (current_seqno_ r3))
        end
    end.

(** *** Listener address and [prepare] *)

(** Modelled from the spec: [gu::URI] (gu_uri.hpp is not part of the
    sources at hand) splits [scheme://host[:port]]; only its accessors
    are used. *)
Record URI : Type := mk_uri {
  get_scheme : string;
  get_host   : string;
  get_port   : option string
}.

(** What the system answers during [prepare]: the outcome of the block
    that resolves, opens, binds and listens (the port bound, or the code
    of the [asio::system_error]), an error of [gu::ssl_prepare_context],
    and the return value of [gu_thread_create]. *)
Record PrepareEnv : Type := mk_prepare_env {
  pe_listen        : Z + Z;
  pe_ssl_prepare   : option Z;
  pe_thread_create : Z
}.

Section Address.

(** The parser of [gu::URI] ([None]: the constructor throws), the value
    of [gu::from_string<uint16_t>] ([None]: it throws) and the number
    [galera::BASE_PORT_DEFAULT] stands for. *)
Variable gu_URI : string -> option URI.
Variable from_string_uint16 : string -> option Z.
Variable BASE_PORT_DEFAULT : Z.

(** [Receiver::Receiver] (ist.cpp:91-159): after the initialisers, the
    body stores the
    host of [addr] under [RECV_ADDR] when that key has no value and an
    [addr] is given ([None] is the null pointer). *)
Definition new (conf : gmap string string) (addr : option string)
  : result Receiver :=
  match Config.get conf RECV_ADDR, addr with
  | None, Some a =>
      match gu_URI ("tcp://" +:+ a) with
      | Some uri => ok (init (Config.set conf RECV_ADDR (get_host uri)))
      | None => throw (gu_Exception EINVAL)
      end
  | _, _ => ok (init conf)
  end.

(** The test for an explicit scheme and the prefix put in front
    otherwise, the same lines in both address functions. *)
Definition with_scheme (conf : gmap string string) (addr : string)
  : string :=
  match index 0 "://" addr with
  | Some _ => addr
  | None =>
      let ssl :=
        match Config.get conf ssl_key with
        | Some k => negb (Nat.eqb (String.length k) 0)
        | None => false
        end in
      if ssl then "ssl://" +:+ addr else "tcp://" +:+ addr
  end.

(** The handler of [catch (gu::NotSet&)] around [get_port]. *)
Definition with_port (conf : gmap string string) (uri : URI)
    (addr : string) : string :=
  match get_port uri with
  | Some _ => addr
  | None =>
      let port :=
        match Config.get conf BASE_PORT_KEY with
        | Some s =>
            match from_string_uint16 s with
            | Some n => n
            | None => BASE_PORT_DEFAULT
            end
        | None => BASE_PORT_DEFAULT
        end in
      addr +:+ ":" +:+ pretty (port + 1)
  end.

(** [IST_determine_recv_addr] (ist.cpp:191-262): the configuration as the
    function leaves it, and the address or the exception. *)
Definition IST_determine_recv_addr (conf : gmap string string)
  : gmap string string * result string :=
  let found :=
    match Config.get conf RECV_ADDR with
    | Some a => Some a
    | None => Config.get conf BASE_HOST_KEY
    end in
  match found with
  | None => (conf, throw (gu_Exception EINVAL))
  | Some recv_addr =>
      let recv_addr := with_scheme conf recv_addr in
      match gu_URI recv_addr with
      | None => (conf, throw (gu_Exception EINVAL))
      | Some ra_uri =>
          let conf1 :=
            if Config.has conf BASE_HOST_KEY then conf
            else Config.set conf BASE_HOST_KEY (get_host ra_uri) in
          (conf1, ok (with_port conf1 ra_uri recv_addr))
      end
  end.

(** [IST_determine_recv_bind] (ist.cpp:264-312). *)
Definition IST_determine_recv_bind (conf : gmap string string)
  : result string :=
  match Config.get conf RECV_BIND with
  | None => throw gu_NotSet
  | Some recv_bind =>
      let recv_bind := with_scheme conf recv_bind in
      match gu_URI recv_bind with
      | None => throw (gu_Exception EINVAL)
      | Some rb_uri => ok (with_port conf rb_uri recv_bind)
      end
  end.

(** [Receiver::prepare] (ist.cpp:314-395).  The result holds the receiver,
    the state of its thread, the events and what the call returns or
    throws. *)
Definition prepare (r : Receiver) (p : pc)
    (first_seqno last_seqno : wsrep_seqno_t) (version : Z)
    (source_id : Z) (env : PrepareEnv)
  : Receiver * pc * list Event * result string :=
  let r := set_source_id source_id (set_version version (set_ready false r)) in
  match IST_determine_recv_addr (conf_ r) with
  | (conf, throw e) => (set_conf conf r, p, [], throw e)
  | (conf, ok addr) =>
      let r := set_recv_addr addr (set_conf conf r) in
      let bind :=
        match IST_determine_recv_bind (conf_ r) with
        | throw gu_NotSet => ok (recv_addr_ r)
        | other => other
        end in
      match bind with
      | throw e => (r, p, [], throw e)
      | ok recv_bind =>
          let r := set_recv_bind recv_bind r in
          match gu_URI (recv_addr_ r), gu_URI (recv_bind_ r) with
          | Some uri_addr, Some uri_bind =>
              let ssl := String.eqb (get_scheme uri_addr) "ssl" in
              let r := if ssl then set_use_ssl true r else r in
              match (if ssl then pe_ssl_prepare env else None) with
              | Some code => (r, p, [], throw (gu_Exception code))
              | None =>
                  match get_port uri_bind with
                  | None => (r, p, [], throw gu_NotSet)
                  | Some _ =>
                      match pe_listen env with
                      | inr code =>
                          (set_recv_addr "" r, p, [],
                           throw (gu_Exception code))
                      | inl port =>
                          let r :=
                            set_recv_addr
                              (get_scheme uri_addr +:+ "://" +:+
                               get_host uri_addr +:+ ":" +:+ pretty port)
                              r in
                          let r :=
                            set_last_seqno last_seqno
                              (set_first_seqno first_seqno r) in
                          if negb (pe_thread_create env =? 0) then
                            (set_recv_addr "" r, p, [acceptor_listen],
                             throw (gu_Exception (pe_thread_create env)))
                          else
                            let r := set_running true r in
                            (r, Accepting,
                             [acceptor_listen; thread_create],
                             ok (recv_addr_ r))
                      end
                  end
              end
          | _, _ => (r, p, [], throw (gu_Exception EINVAL))
          end
      end
  end.

End Address.

(** *** The receive thread next to its caller

    The control thread calls [ready] while the receive thread runs; a
    schedule lists, in the order they take effect, the steps of the
    thread and the calls of [ready]. *)
Inductive Call : Type :=
| call_thread (i : Input)
| call_ready (first : wsrep_seqno_t).

Fixpoint exec (r : Receiver) (p : pc) (cs : list Call)
  : option (Receiver * pc * list Event) :=
  match cs with
  | [] => Some (r, p, [])
  | call_ready first :: cs' => exec (ready first r) p cs'
  | call_thread i :: cs' =>
      match step r p i with
      | None => None
      | Some (r1, p1, evs1) =>
          match exec r1 p1 cs' with
          | None => None
          | Some (r2, p2, evs2) => Some (r2, p2, evs1 ++ evs2)
          end
      end
  end.

End Receiver.

(** ** Sender *)

(** Modelled from the spec: [gcache::GCache::Buffer] (GCache.hpp is not
    part of the sources at hand) is the cache's view of one write-set; the
    sender reads its [seqno_g()] and hands the rest to [send_ordered]. *)
Record Buffer : Type := mk_buffer {
  buf_seqno_g : wsrep_seqno_t;
  buf_type    : gcs_act_type;
  buf_size    : Z;
  buf_ptr     : list Byte.byte
}.

(** Modelled from the spec: [seqno_get_buffers(vec, first) -> n] fills up
    to [vec.size()] buffers starting at seqno [first] and returns the
    number filled.  A cache is the function from the size of the vector
    and [first] to the buffers it fills; [n_read] is their number, so a
    call that returns [n_read <= 0] is one that fills nothing. *)
Definition GCache : Type := Z -> wsrep_seqno_t -> list Buffer.

(** The frames a sender writes once the handshake is over. *)
Inductive Wire : Type :=
| w_ordered (buf : Buffer) (preload_flag : bool)
| w_ctrl (code : Z).

Definition ordered_frames (ws : list Wire) : list (Buffer * bool) :=
  omap (fun w => match w with w_ordered b f => Some (b, f) | _ => None end) ws.

(** What the sender's surroundings answer during [send]:
    - [se_handshake]: [recv_handshake], [send_handshake_response] and
      [recv_ctrl] give a ctrl code or throw;
    - [se_write_err k = Some c]: the write of the [k]-th frame after the
      handshake throws [asio::system_error] with code [c];
    - [se_caches]: the cache as it answers the first, second, ... call of
      [seqno_get_buffers]. *)
Record SendEnv : Type := mk_send_env {
  se_handshake : result Z;
  se_write_err : nat -> option Z;
  se_caches    : list GCache
}.

Module Sender.

Record t : Type := mk {
  version_ : Z;
  use_ssl_ : bool
}.

(** What the [for] loop over one batch ends with. *)
Inductive batch_end : Type :=
| batch_done (written : nat)
| batch_return (res : result unit).

Section Send.

(** [VER40] is declared in a header that is not part of the sources at
    hand: the protocol version from which [first > last] is allowed. *)
Variable VER40 : Z.
Variable env : SendEnv.

(** [send_eof] (ist.cpp:909-929): [send_ctrl(C_EOF)], then the read that
    waits for the peer to close, whose errors are swallowed. *)
Definition send_eof (k : nat) : list Wire * result unit :=
  match se_write_err env k with
  | Some c => ([], throw (asio_system_error c))
  | None => ([w_ctrl Ctrl.C_EOF], ok tt)
  end.

(** The [for] loop of [send] over the [n_read] buffers of a batch
    (ist.cpp:996-1028); [k] counts the frames written so far. *)
Fixpoint send_batch (bufs : list Buffer) (last preload_start : Z)
    (k : nat) : list Wire * batch_end :=
  match bufs with
  | [] => ([], batch_done k)
  | b :: bufs' =>
      let preload_flag :=
        (preload_start >? 0) && (buf_seqno_g b >=? preload_start) in
      match se_write_err env k with
      | Some c => ([], batch_return (throw (asio_system_error c)))
      | None =>
          if buf_seqno_g b =? last then
            let '(ws, res) := send_eof (S k) in
            (w_ordered b preload_flag :: ws, batch_return res)
          else
            let '(ws, e) := send_batch bufs' last preload_start (S k) in
            (w_ordered b preload_flag :: ws, e)
      end
  end.

(** The size of [buf_vec]:
    [std::min(static_cast<size_t>(last - first + 1), 1024)]. *)
Definition batch_size (first last : Z) : Z :=
  Z.min (to_size_t (wrap64 (wrap64 (last - first) + 1))) 1024.

(** The [while] loop of [send] (ist.cpp:992-1037); one cache answer per
    turn.  When [n_read > 0] fails the loop is left and nothing follows it:
    [send] returns.  [None]: the answers run out while the loop still
    asks. *)
Fixpoint send_loop (caches : list GCache) (size : Z)
    (first last preload_start : Z) (k : nat)
  : option (list Wire * result unit) :=
  match caches with
  | [] => None
  | gc :: caches' =>
      let bufs := take (Z.to_nat size) (gc size first) in
      let n_read := Z.of_nat (length bufs) in
      if n_read >? 0 then
        match send_batch bufs last preload_start k with
        | (ws, batch_return res) => Some (ws, res)
        | (ws, batch_done k') =>
            let first := wrap64 (first + n_read) in
            match send_loop caches' (batch_size first last)
                    first last preload_start k' with
            | None => None
            | Some (ws', res) => Some (ws ++ ws', res)
            end
        end
      else Some ([], ok tt)
  end.

(** The handler [catch (asio::system_error& e)] at the end of [send]. *)
Definition rethrow (res : result unit) : result unit :=
  match res with
  | throw (asio_system_error c) => throw (gu_Exception c)
  | other => other
  end.

(** [Sender::send] (ist.cpp:931-1045): the frames written after the
    handshake, and whether the call returns or throws. *)
Definition send (s : t) (first last preload_start : wsrep_seqno_t)
  : option (list Wire * result unit) :=
  if (first >? last) && (version_ s <? VER40) then
    Some ([], throw (gu_Exception EINVAL))
  else
    match se_handshake env with
    | throw e => Some ([], rethrow (throw e))
    | ok ctrl =>
        if ctrl <? 0 then Some ([], throw (gu_Exception EPROTO))
        else if (first >? last) || ((first =? 0) && (last =? 0)) then
          let '(ws, res) := send_eof 0 in Some (ws, rethrow res)
        else
          match send_loop (se_caches env) (batch_size first last)
                  first last preload_start 0 with
          | None => None
          | Some (ws, res) => Some (ws, rethrow res)
          end
    end.

End Send.

End Sender.

(** ** AsyncSender and AsyncSenderMap *)

(** An [AsyncSender] object; [as_ptr] is its address, by which the map
    knows it. *)
Record AsyncSender : Type := mk_async_sender {
  as_ptr           : positive;
  as_sender        : Sender.t;
  as_peer          : string;
  as_first         : wsrep_seqno_t;
  as_last          : wsrep_seqno_t;
  as_preload_start : wsrep_seqno_t
}.

Module AsyncSenderMap.

(** [senders_], a [std::set<AsyncSender*>]. *)
Record t : Type := mk {
  senders_ : gset positive
}.

(** [AsyncSenderMap::run] (ist.cpp:1113-1130); [thread_err] is what
    [gu_thread_create] returns. *)
Definition run (m : t) (a : AsyncSender) (thread_err : Z) : result t :=
  if negb (thread_err =? 0) then throw (gu_Exception thread_err)
  else ok (mk ({[as_ptr a]} ∪ senders_ m)).

(** [AsyncSenderMap::remove] (ist.cpp:1133-1142). *)
Definition remove (m : t) (a : positive) (seqno : wsrep_seqno_t)
  : result t :=
  if decide (a ∈ senders_ m) then ok (mk (senders_ m ∖ {[a]}))
  else throw gu_NotFound.

(** [AsyncSenderMap::cancel] (ist.cpp:1145-1163): every sender is taken
    out, cancelled,
    joined and deleted; the senders in the order of the set. *)
Definition cancel (m : t) : t * list positive :=
  (mk ∅, elements (senders_ m)).

End AsyncSenderMap.

(** What [run_async_sender] leaves behind: the frames written, the
    [join_seqno] it computed, the map, and whether the sender deleted
    itself ([remove] did not throw). *)
Record served : Type := mk_served {
  sv_wire       : list Wire;
  sv_join_seqno : wsrep_seqno_t;
  sv_map        : AsyncSenderMap.t;
  sv_deleted    : bool
}.

(** [run_async_sender] (ist.cpp:1050-1110).  [None]: [send] does not come
    back, or an
    exception that is not a [gu::Exception] leaves the thread function
    ([catch (...) { throw; }]). *)
Definition run_async_sender (VER40 : Z) (env : SendEnv) (a : AsyncSender)
    (m : AsyncSenderMap.t) : option served :=
  match Sender.send VER40 env (as_sender a) (as_first a) (as_last a)
          (as_preload_start a) with
  | None => None
  | Some (ws, res) =>
      let join_seqno :=
        match res with
        | ok _ => Some (as_last a)
        | throw (gu_Exception errno) => Some (- errno)
        | throw _ => None
        end in
      match join_seqno with
      | None => None
      | Some js =>
          match AsyncSenderMap.remove m (as_ptr a) js with
          | ok m' => Some (mk_served ws js m' true)
          | throw _ => Some (mk_served ws js m false)
          end
      end
  end.

(** ** The stream between a sender and a receiver *)

(** Modelled from the spec: [Proto::recv_ordered] (ist_proto.hpp is not
    part of the sources at hand) parses one frame: an ordered frame gives
    the action the donor sent with its preload flag, the ctrl code [C_EOF]
    gives the action of kind UNKNOWN that stands for the end of the stream,
    any other ctrl code is a protocol error. *)
Definition recv_ordered (w : Wire) : recv_result :=
  match w with
  | w_ordered b f =>
      recv_frame (mk_action (buf_seqno_g b) (buf_type b) (buf_size b) (buf_ptr b)) f
  | w_ctrl code =>
      if code =? Ctrl.C_EOF then recv_frame (mk_action 0 GCS_ACT_UNKNOWN 0 []) false
      else recv_throw EPROTO
  end.

(** The receive thread reads what the sender wrote, frame by frame and in
    order, possibly not to the end; the collaborators of the receiver may
    throw at any frame. *)
Inductive delivers : list Wire -> list Input -> Prop :=
| delivers_nil ws : delivers ws []
| delivers_cons w ws unser hres ins :
    delivers ws ins ->
    delivers (w :: ws) (in_recv (recv_ordered w) unser hres :: ins).

(** A sequence number of the data model: positive (the assertion
    [act.seqno_g > 0] of [run]) and an [int64_t]. *)
Definition valid_seqno (s : Z) : Prop := 0 < s <= INT64_MAX.

(** The preload flag over a list of frames changes from false to true at
    most once and never back. *)
Definition nondecreasing (l : list bool) : Prop :=
  exists n m : nat, l = replicate n false ++ replicate m true.

(** An input that carries no exception and, if it is a data frame, a
    sequence number of the data model. *)
Definition clean (i : Input) : Prop :=
  match i with
  | in_accept None | in_handshake None | in_wakeup => True
  | in_recv (recv_frame act _) None None =>
      act_type act <> GCS_ACT_UNKNOWN -> valid_seqno (act_seqno_g act)
  | _ => False
  end.

(** The states of the receive thread before the first frame is read. *)
Definition before_streaming (p : pc) : Prop :=
  match p with
  | Accepting | Handshaking | WaitingForSST => True
  | _ => False
  end.

(** The receivers on which no [prepare] has succeeded: a receiver as
    constructed, and what the calls of [prepare] that throw, of [ready] and
    of [finished] make of one. *)
Inductive never_prepared (gu_URI : string -> option Receiver.URI)
    (from_string_uint16 : string -> option Z) (BASE_PORT_DEFAULT : Z)
  : Receiver -> pc -> Prop :=
| np_new conf addr r :
    Receiver.new gu_URI conf addr = ok r ->
    never_prepared gu_URI from_string_uint16 BASE_PORT_DEFAULT r NoThread
| np_prepare r p first_seqno last_seqno version source_id env r' p' evs e :
    never_prepared gu_URI from_string_uint16 BASE_PORT_DEFAULT r p ->
    Receiver.prepare gu_URI from_string_uint16 BASE_PORT_DEFAULT
      r p first_seqno last_seqno version source_id env
    = (r', p', evs, throw e) ->
    never_prepared gu_URI from_string_uint16 BASE_PORT_DEFAULT r' p'
| np_ready r p first :
    never_prepared gu_URI from_string_uint16 BASE_PORT_DEFAULT r p ->
    never_prepared gu_URI from_string_uint16 BASE_PORT_DEFAULT
      (Receiver.ready first r) p
| np_finished r p resolve_err ins r' p' evs res :
    never_prepared gu_URI from_string_uint16 BASE_PORT_DEFAULT r p ->
    Receiver.finished r p resolve_err ins = Some (r', p', evs, res) ->
    never_prepared gu_URI from_string_uint16 BASE_PORT_DEFAULT r' p'.

(** ** The properties, as stated on the model *)

(** What a dispatched frame's [must_apply] is against a threshold. *)
Definition applies_from (first : wsrep_seqno_t) (d : gcs_action * bool * bool)
  : Prop :=
  snd (fst d) = (act_seqno_g (fst (fst d)) >=? first).

(** When the loop takes a data frame: it is the first one and not above
    the threshold, or it is the successor of the last one. *)
Definition accepted (r : Receiver) (act : gcs_action) : Prop :=
  (current_seqno_ r = WSREP_SEQNO_UNDEFINED
   /\ act_seqno_g act <= first_seqno_ r)
  \/ (current_seqno_ r <> WSREP_SEQNO_UNDEFINED
      /\ act_seqno_g act = wrap64 (current_seqno_ r + 1)).

(** What a session that ends with [ist_end(0)] has dispatched. *)
Definition consecutive_to_last (r r' : Receiver) (evs : list Event) : Prop :=
  exists f c, f <= first_seqno_ r /\ f <= c
              /\ dispatched_seqnos evs = seqZ f (c - f + 1)
              /\ current_seqno_ r' = c
              /\ (last_seqno_ r <= 0 \/ last_seqno_ r <= c).

(** The two rules of the loop for the sequence number of a data frame. *)
Definition first_frame_rule : Prop :=
  forall r ps pg act preload unser hres,
    act_type act <> GCS_ACT_UNKNOWN ->
    current_seqno_ r = WSREP_SEQNO_UNDEFINED ->
    (first_seqno_ r < act_seqno_g act ->
     Receiver.run_frame r ps pg act preload unser hres
     = Some (Receiver.turn_err r EINVAL []))
    /\ (act_seqno_g act <= first_seqno_ r ->
        exists pr,
          progress_total pr
          = wrap64 (wrap64 (last_seqno_ r - act_seqno_g act) + 1)
          /\ Receiver.run_frame r ps pg act preload unser hres
             = Some (Receiver.run_dispatch
                       (set_current_seqno (act_seqno_g act) r)
                       ps pr act preload unser hres)).

Definition next_frame_rule : Prop :=
  forall r ps pr act preload unser hres,
    act_type act <> GCS_ACT_UNKNOWN ->
    current_seqno_ r <> WSREP_SEQNO_UNDEFINED ->
    let r1 := set_current_seqno (wrap64 (current_seqno_ r + 1)) r in
    (act_seqno_g act <> current_seqno_ r1 ->
     Receiver.run_frame r ps (Some pr) act preload unser hres
     = Some (Receiver.turn_err r1 EINVAL []))
    /\ (act_seqno_g act = current_seqno_ r1 ->
        Receiver.run_frame r ps (Some pr) act preload unser hres
        = Some (Receiver.run_dispatch r1 ps (progress_update 1 pr)
                  act preload unser hres)).

(** What the termination code reports after a rejection: [EPROTO] in the
    place of [EINVAL] when [current_seqno_] is short of a positive
    [last_seqno_]. *)
Definition rejection_report : Prop :=
  forall r,
    snd (Receiver.run_err r EINVAL)
    = [seqno_unlock; socket_close;
       ist_end (if (0 <? last_seqno_ r) && (current_seqno_ r <? last_seqno_ r)
                then EPROTO else EINVAL)].

(** The flag [send] gives the frame of a buffer. *)
Definition preload_of (preload_start : Z) (seqno : Z) : bool :=
  (preload_start >? 0) && (seqno >=? preload_start).

Definition flagged (preload_start : Z) (bf : Buffer * bool) : Prop :=
  snd bf = preload_of preload_start (buf_seqno_g (fst bf)).

(** A frame as the sender of a session flags it: a data frame carries a
    sequence number of the data model and the flag computed from it. *)
Definition flagged_input (preload_start : Z) (i : Input) : Prop :=
  match i with
  | in_recv (recv_frame act preload) _ _ =>
      act_type act <> GCS_ACT_UNKNOWN ->
      valid_seqno (act_seqno_g act)
      /\ preload = preload_of preload_start (act_seqno_g act)
  | _ => True
  end.

(** ** Fixtures: a concrete configuration for the examples *)

Module Fixture.

Definition gu_URI (s : string) : option Receiver.URI :=
  Some (Receiver.mk_uri "tcp" "10.0.0.1" (Some "4568")).
Definition from_string_uint16 (s : string) : option Z := None.
Definition BASE_PORT_DEFAULT : Z := 4567.

Definition conf : gmap string string :=
  {[ RECV_ADDR := "tcp://10.0.0.1:4568" ]}.

Definition env_ok : Receiver.PrepareEnv :=
  Receiver.mk_prepare_env (inl 4568) None 0.

Definition prepare := Receiver.prepare gu_URI from_string_uint16 BASE_PORT_DEFAULT.

(** A receiver after [prepare(first, last, 7, 0)] succeeded. *)
Definition prepared (first last : Z) : Receiver :=
  fst (fst (fst (prepare (Receiver.init conf) NoThread first last 7 0 env_ok))).

Definition ws (seqno : Z) : gcs_action :=
  mk_action seqno GCS_ACT_WRITESET 0 [].
Definition eof : gcs_action := mk_action 0 GCS_ACT_UNKNOWN 0 [].
Definition frame (seqno : Z) (preload : bool) : Input :=
  in_recv (recv_frame (ws seqno) preload) None None.
Definition frame_eof : Input := in_recv (recv_frame eof false) None None.

Definition buffer (seqno : Z) : Buffer :=
  mk_buffer seqno GCS_ACT_WRITESET 0 [].

End Fixture.

(** A receiver whose [prepare] threw because the listener could not be
    opened (code 98, the address is in use). *)
Definition unlistened : Receiver :=
  fst (fst (fst (Fixture.prepare (Receiver.init Fixture.conf) NoThread 5 10 7 0
                   (Receiver.mk_prepare_env (inr 98) None 0)))).

(** An [ssl://] address: what [gu::URI] makes of it, a configuration
    that holds it, and an environment whose [gu::ssl_prepare_context]
    throws [EINVAL] (no usable certificate). *)
Definition ssl_URI (s : string) : option Receiver.URI :=
  Some (Receiver.mk_uri "ssl" "10.0.0.1" (Some "4568")).

Definition ssl_conf : gmap string string :=
  {[ RECV_ADDR := "ssl://10.0.0.1:4568" ]}.

Definition no_ssl_env : Receiver.PrepareEnv :=
  Receiver.mk_prepare_env (inl 4568) (Some EINVAL) 0.

(** A receiver whose [prepare] threw out of [gu::ssl_prepare_context]. *)
Definition unsecured : Receiver :=
  fst (fst (fst (Receiver.prepare ssl_URI Fixture.from_string_uint16
                   Fixture.BASE_PORT_DEFAULT (Receiver.init ssl_conf)
                   NoThread 5 10 7 0 no_ssl_env))).

(** A cache that holds the write-sets 1 and 2 only. *)
Definition dry_cache : GCache :=
  fun size first =>
    if first =? 1 then [Fixture.buffer 1; Fixture.buffer 2] else [].

Definition dry_env : SendEnv :=
  mk_send_env (ok Ctrl.C_OK) (fun _ => None) [dry_cache; dry_cache].

Definition quiet_env : SendEnv :=
  mk_send_env (ok Ctrl.C_OK) (fun _ => None) [].

(** A peer that resets the connection during the handshake (code 104),
    and one that answers the handshake with a negative ctrl code. *)
Definition reset_env : SendEnv :=
  mk_send_env (throw (asio_system_error 104)) (fun _ => None) [].

Definition refused_env : SendEnv :=
  mk_send_env (ok (-1)) (fun _ => None) [].

(** A cache that holds the write-sets 3, 4, 5 and 6. *)
Definition full_cache : GCache :=
  fun size first =>
    if first =? 3 then Fixture.buffer <$> [3; 4; 5; 6] else [].

Definition full_env : SendEnv :=
  mk_send_env (ok Ctrl.C_OK) (fun _ => None) [full_cache].

(** A map with the senders 1 and 2. *)
Definition two_senders : AsyncSenderMap.t :=
  AsyncSenderMap.mk {[ 1%positive; 2%positive ]}.

(** ** Further properties, as stated on the model *)

(** The [must_apply] flags of the frames handed to the handler. *)
Definition dispatched_applies (evs : list Event) : list bool :=
  (fun d => snd (fst d)) <$> dispatches evs.

(** A thread that runs: it has been created and has neither ended nor
    died. *)
Definition alive (p : pc) : Prop :=
  match p with
  | Accepting | Handshaking | WaitingForSST | Streaming _ _ => True
  | _ => False
  end.

(** An input whose data frame, if it is one, carries a sequence number of
    the data model; the collaborators may throw. *)
Definition valid_input (i : Input) : Prop :=
  match i with
  | in_recv (recv_frame act _) _ _ =>
      act_type act <> GCS_ACT_UNKNOWN -> valid_seqno (act_seqno_g act)
  | _ => True
  end.

(** The action [recv_ordered] gives for the end of the stream. *)
Definition eof_action : gcs_action := mk_action 0 GCS_ACT_UNKNOWN 0 [].

(** What the receive thread is answered when a stream arrives whole: the
    frames in order, nothing thrown, then the end of the stream. *)
Definition stream_inputs (frames : list (gcs_action * bool)) : list Input :=
  ((fun x => in_recv (recv_frame (fst x) (snd x)) None None) <$> frames)
  ++ [in_recv (recv_frame eof_action false) None None].

(** The code [run] gives [ist_end] after a stream that ended in order at
    the sequence number [c]. *)
Definition end_code (r : Receiver) (c : wsrep_seqno_t) : Z :=
  if (0 <? last_seqno_ r) && (c <? last_seqno_ r) then EPROTO else 0.
(** What may happen to a receiver and its thread, one call or one step of
    the thread after the other: [later r p r' p'] when [(r', p')] is
    reached from [(r, p)]. *)
Inductive later (gu_URI : string -> option Receiver.URI)
    (from_string_uint16 : string -> option Z) (BASE_PORT_DEFAULT : Z)
  : Receiver -> pc -> Receiver -> pc -> Prop :=
| later_refl r p :
    later gu_URI from_string_uint16 BASE_PORT_DEFAULT r p r p
| later_prepare r p first_seqno last_seqno version source_id env
    r1 p1 evs res r' p' :
    Receiver.prepare gu_URI from_string_uint16 BASE_PORT_DEFAULT
      r p first_seqno last_seqno version source_id env
    = (r1, p1, evs, res) ->
    later gu_URI from_string_uint16 BASE_PORT_DEFAULT r1 p1 r' p' ->
    later gu_URI from_string_uint16 BASE_PORT_DEFAULT r p r' p'
| later_ready r p first r' p' :
    later gu_URI from_string_uint16 BASE_PORT_DEFAULT
      (Receiver.ready first r) p r' p' ->
    later gu_URI from_string_uint16 BASE_PORT_DEFAULT r p r' p'
| later_step r p i r1 p1 evs r' p' :
    Receiver.step r p i = Some (r1, p1, evs) ->
    later gu_URI from_string_uint16 BASE_PORT_DEFAULT r1 p1 r' p' ->
    later gu_URI from_string_uint16 BASE_PORT_DEFAULT r p r' p'
| later_finished r p resolve_err ins r1 p1 evs res r' p' :
    Receiver.finished r p resolve_err ins = Some (r1, p1, evs, res) ->
    later gu_URI from_string_uint16 BASE_PORT_DEFAULT r1 p1 r' p' ->
    later gu_URI from_string_uint16 BASE_PORT_DEFAULT r p r' p'.

(** [prepare(5, 10)] with the configured port 4568 and a listener that the
    system bound to the port 40123. *)
Definition rebound : Receiver :=
  fst (fst (fst (Fixture.prepare (Receiver.init Fixture.conf) NoThread 5 10 7 0
                   (Receiver.mk_prepare_env (inl 40123) None 0)))).


(** A receiver prepared for 5..10 whose [finished()] was called while its
    thread waited in the rendezvous, before [ready()]. *)
Definition stood_down : Receiver :=
  set_recv_addr ""
    (set_running false
       (fst (Receiver.run_err (set_interrupted true (Fixture.prepared 5 10))
               0))).

(** The same receiver prepared again for 5..10. *)
Definition reprepared : Receiver :=
  fst (fst (fst (Fixture.prepare stood_down Terminated 5 10 7 0
                   Fixture.env_ok))).

(** ** The sender over a cache that holds what is asked for *)

(** A cache that holds the sequence numbers it is asked for: to a request
    for [size > 0] buffers from [first] on it gives at least one buffer,
    and the buffers it gives are numbered [first, first + 1, ...] without
    gap; none of them is of the kind UNKNOWN, which on the wire stands for
    the end of the stream. *)
Definition serves (gc : GCache) : Prop :=
  forall size first,
    0 < size ->
    gc size first <> []
    /\ buf_seqno_g <$> gc size first
       = seqZ first (Z.of_nat (length (gc size first)))
    /\ Forall (fun b => buf_type b <> GCS_ACT_UNKNOWN) (gc size first).

(** The ordered frames [send] writes for a list of buffers. *)
Definition frames_of (preload_start : Z) (bufs : list Buffer) : list Wire :=
  (fun b => w_ordered b (preload_of preload_start (buf_seqno_g b))) <$> bufs.

(** What the receive thread reads when every frame written arrives and no
    collaborator of the receiver throws. *)
Definition received (ws : list Wire) : list Input :=
  (fun w => in_recv (recv_ordered w) None None) <$> ws.

(** A cache that holds every write-set. *)
Definition ideal_cache : GCache :=
  fun size first => Fixture.buffer <$> seqZ first size.

Definition ideal_env : SendEnv :=
  mk_send_env (ok Ctrl.C_OK) (fun _ => None) (replicate 4 ideal_cache).

(** The action a buffer arrives as. *)
Definition action_of (b : Buffer) : gcs_action :=
  mk_action (buf_seqno_g b) (buf_type b) (buf_size b) (buf_ptr b).


Example prepared_5_10 :
  Fixture.prepare (Receiver.init Fixture.conf) NoThread 5 10 7 0 Fixture.env_ok
  = (Fixture.prepared 5 10, Accepting, [acceptor_listen; thread_create],
     ok "tcp://10.0.0.1:4568")
  /\ first_seqno_ (Fixture.prepared 5 10) = 5
  /\ last_seqno_ (Fixture.prepared 5 10) = 10
  /\ current_seqno_ (Fixture.prepared 5 10) = -1
  /\ ready_ (Fixture.prepared 5 10) = false.
Proof. vm_compute. repeat split; reflexivity. Qed.

(** ** Properties of the receive thread *)

Lemma dispatches_app (evs1 evs2 : list Event) :
  dispatches (evs1 ++ evs2) = dispatches evs1 ++ dispatches evs2.
Proof. unfold dispatches. apply omap_app. Qed.

Lemma dispatched_seqnos_app (evs1 evs2 : list Event) :
  dispatched_seqnos (evs1 ++ evs2)
  = dispatched_seqnos evs1 ++ dispatched_seqnos evs2.
Proof. unfold dispatched_seqnos. rewrite dispatches_app. apply fmap_app. Qed.

Lemma dispatched_preloads_app (evs1 evs2 : list Event) :
  dispatched_preloads (evs1 ++ evs2)
  = dispatched_preloads evs1 ++ dispatched_preloads evs2.
Proof. unfold dispatched_preloads. rewrite dispatches_app. apply fmap_app. Qed.

Lemma ends_app (evs1 evs2 : list Event) :
  ends (evs1 ++ evs2) = ends evs1 ++ ends evs2.
Proof. unfold ends. apply omap_app. Qed.

(** The termination code writes [running_] and [error_code_] only, and
    dispatches nothing. *)
Lemma run_err_spec (r : Receiver) (ec : Z) :
  exists ec1,
    snd (Receiver.run_err r ec) = [seqno_unlock; socket_close; ist_end ec1]
    /\ ec1 = (if (0 <? last_seqno_ r) && negb (ec =? EINTR)
                 && (current_seqno_ r <? last_seqno_ r)
              then EPROTO else ec)
    /\ first_seqno_ (fst (Receiver.run_err r ec)) = first_seqno_ r
    /\ last_seqno_ (fst (Receiver.run_err r ec)) = last_seqno_ r
    /\ current_seqno_ (fst (Receiver.run_err r ec)) = current_seqno_ r
    /\ interrupted_ (fst (Receiver.run_err r ec)) = interrupted_ r
    /\ ready_ (fst (Receiver.run_err r ec)) = ready_ r
    /\ recv_addr_ (fst (Receiver.run_err r ec)) = recv_addr_ r.
Proof.
  unfold Receiver.run_err. eexists. split; [reflexivity|].
  split; [reflexivity|]. simpl.
  repeat case_match; simpl; repeat split; reflexivity.
Qed.

(** Unfolds one step of the thread into its cases. *)
Ltac step_cases H :=
  unfold Receiver.step, Receiver.run_frame, Receiver.run_dispatch,
    Receiver.run_err in H;
  repeat case_match; simplify_eq; simpl in *.

(** A step of the thread leaves the fields its caller writes alone. *)
Lemma step_frame_fields (r : Receiver) (p : pc) (i : Input)
    (r' : Receiver) (p' : pc) (evs : list Event) :
  Receiver.step r p i = Some (r', p', evs) ->
  first_seqno_ r' = first_seqno_ r /\ last_seqno_ r' = last_seqno_ r
  /\ interrupted_ r' = interrupted_ r /\ ready_ r' = ready_ r.
Proof. intros H. step_cases H; repeat split; congruence. Qed.

Lemma step_must_apply (r : Receiver) (p : pc) (i : Input)
    (r' : Receiver) (p' : pc) (evs : list Event) :
  Receiver.step r p i = Some (r', p', evs) ->
  Forall (applies_from (first_seqno_ r)) (dispatches evs).
Proof.
  intros H. step_cases H; unfold applies_from;
    repeat constructor; simpl;
    repeat match goal with
           | E : negb (_ =? _) = false |- _ =>
               apply negb_false_iff, Z.eqb_eq in E
           end; congruence.
Qed.

Lemma run_frame_fields (r : Receiver) (p : pc) (ins : list Input)
    (r' : Receiver) (p' : pc) (evs : list Event) :
  Receiver.run r p ins = Some (r', p', evs) ->
  first_seqno_ r' = first_seqno_ r /\ last_seqno_ r' = last_seqno_ r
  /\ interrupted_ r' = interrupted_ r /\ ready_ r' = ready_ r.
Proof.
  revert r p r' p' evs.
  induction ins as [|i ins IH]; intros r p r' p' evs H; simpl in H.
  - simplify_eq. repeat split; reflexivity.
  - destruct (Receiver.step r p i) as [[[r1 p1] evs1]|] eqn:E1; [|discriminate].
    destruct (Receiver.run r1 p1 ins) as [[[r2 p2] evs2]|] eqn:E2;
      [|discriminate].
    simplify_eq.
    destruct (step_frame_fields _ _ _ _ _ _ E1) as (A1 & A2 & A3 & A4).
    destruct (IH _ _ _ _ _ E2) as (B1 & B2 & B3 & B4).
    repeat split; congruence.
Qed.

Lemma run_must_apply (r : Receiver) (p : pc) (ins : list Input)
    (r' : Receiver) (p' : pc) (evs : list Event) :
  Receiver.run r p ins = Some (r', p', evs) ->
  Forall (applies_from (first_seqno_ r)) (dispatches evs).
Proof.
  revert r p r' p' evs.
  induction ins as [|i ins IH]; intros r p r' p' evs H; simpl in H.
  - simplify_eq. constructor.
  - destruct (Receiver.step r p i) as [[[r1 p1] evs1]|] eqn:E1; [|discriminate].
    destruct (Receiver.run r1 p1 ins) as [[[r2 p2] evs2]|] eqn:E2;
      [|discriminate].
    simplify_eq. rewrite dispatches_app. apply Forall_app. split.
    + eapply step_must_apply; eassumption.
    + destruct (step_frame_fields _ _ _ _ _ _ E1) as (<- & _).
      eapply IH; eassumption.
Qed.

(** A schedule without calls of [ready] is a run of the thread. *)
Lemma exec_thread_only (r : Receiver) (p : pc) (ins : list Input) :
  Receiver.exec r p (Receiver.call_thread <$> ins) = Receiver.run r p ins.
Proof.
  revert r p. induction ins as [|i ins IH]; intros r p; simpl; [reflexivity|].
  destruct (Receiver.step r p i) as [[[r1 p1] evs1]|]; [|reflexivity].
  rewrite IH. reflexivity.
Qed.

(** C2. For every frame the receive thread hands to [ist_trx] or [ist_cc],
    the [must_apply] flag it passes is [seqno_g >= first_seqno_], whatever
    the thread was fed; and a frame after which the loop goes on was handed
    to the handler exactly once, with that flag, so a frame below the
    threshold is dispatched with [must_apply = false]. *)
Theorem dispatch_must_apply (r : Receiver) (p : pc) (ins : list Input)
    (r' : Receiver) (p' : pc) (evs : list Event) :
  Receiver.run r p ins = Some (r', p', evs) ->
  Forall (applies_from (first_seqno_ r)) (dispatches evs)
  /\ (forall r0 ps pg act preload unser hres r1 ps1 pg1 evs1,
         Receiver.step r0 (Streaming ps pg)
           (in_recv (recv_frame act preload) unser hres)
         = Some (r1, Streaming ps1 pg1, evs1) ->
         dispatches evs1
         = [(act, act_seqno_g act >=? first_seqno_ r0, preload)]).
Proof.
  intros H. split; [eapply run_must_apply; eassumption|].
  clear. intros r0 ps pg act preload unser hres r1 ps1 pg1 evs1 H.
  step_cases H;
    repeat match goal with
           | E : negb (_ =? _) = false |- _ =>
               apply negb_false_iff, Z.eqb_eq in E
           end; try congruence.
Qed.

Lemma dispatch_must_apply_witness :
  Forall (applies_from 5)
    [(Fixture.ws 3, false, false); (Fixture.ws 4, false, false);
     (Fixture.ws 5, true, false)]
  /\ (forall r0 ps pg act preload unser hres r1 ps1 pg1 evs1,
         Receiver.step r0 (Streaming ps pg)
           (in_recv (recv_frame act preload) unser hres)
         = Some (r1, Streaming ps1 pg1, evs1) ->
         dispatches evs1
         = [(act, act_seqno_g act >=? first_seqno_ r0, preload)]).
Proof.
  eapply (dispatch_must_apply
            (Receiver.ready 5 (Fixture.prepared 5 10)) Accepting
            [in_accept None; in_handshake None; in_wakeup;
             Fixture.frame 3 false; Fixture.frame 4 false;
             Fixture.frame 5 false]
            _ _
            [acceptor_close;
             ist_trx (Fixture.ws 3) false false;
             ist_trx (Fixture.ws 4) false false;
             ist_trx (Fixture.ws 5) true false]).
  vm_compute. reflexivity.
Defined.

(** C8. [ready(f)] overwrites [first_seqno_] whatever [prepare] stored
    there, and every frame the thread dispatches after the call, until
    [ready] is called again, gets its [must_apply] from [f]. *)
Theorem ready_sets_threshold (r : Receiver) (p : pc) (f : wsrep_seqno_t)
    (ins : list Input) (r' : Receiver) (p' : pc) (evs : list Event) :
  Receiver.exec r p (Receiver.call_ready f :: (Receiver.call_thread <$> ins))
  = Some (r', p', evs) ->
  first_seqno_ (Receiver.ready f r) = f
  /\ first_seqno_ r' = f
  /\ Forall (applies_from f) (dispatches evs).
Proof.
  simpl. rewrite exec_thread_only. intros H.
  split; [reflexivity|].
  destruct (run_frame_fields _ _ _ _ _ _ H) as (-> & _).
  split; [reflexivity|].
  apply run_must_apply in H. exact H.
Qed.

Lemma ready_sets_threshold_witness :
  exists r' p',
    Receiver.exec (Fixture.prepared 5 10) Accepting
      (Receiver.call_ready 7
       :: (Receiver.call_thread
             <$> [in_accept None; in_handshake None; in_wakeup;
                  Fixture.frame 5 false; Fixture.frame 6 false;
                  Fixture.frame 7 false]))
    = Some (r', p',
            [acceptor_close;
             ist_trx (Fixture.ws 5) false false;
             ist_trx (Fixture.ws 6) false false;
             ist_trx (Fixture.ws 7) true false])
    /\ first_seqno_ (Fixture.prepared 5 10) = 5
    /\ first_seqno_ (Receiver.ready 7 (Fixture.prepared 5 10)) = 7
    /\ first_seqno_ r' = 7
    /\ Forall (applies_from 7)
         (dispatches
            [acceptor_close;
             ist_trx (Fixture.ws 5) false false;
             ist_trx (Fixture.ws 6) false false;
             ist_trx (Fixture.ws 7) true false]).
Proof.
  eexists _, _. split; [vm_compute; reflexivity|].
  split; [vm_compute; reflexivity|].
  eapply (ready_sets_threshold (Fixture.prepared 5 10) Accepting 7
            [in_accept None; in_handshake None; in_wakeup;
            Fixture.frame 5 false; Fixture.frame 6 false;
            Fixture.frame 7 false]).
  vm_compute. reflexivity.
Defined.

(** *** The sequence of dispatched sequence numbers *)

Lemma wrap64_succ_valid (c s : Z) :
  valid_seqno c -> valid_seqno s -> s = wrap64 (c + 1) -> s = c + 1.
Proof.
  unfold valid_seqno, wrap64, INT64_MAX. intros Hc Hs ->.
  destruct (Z.eq_dec c (2 ^ 63 - 1)) as [->|Hne].
  - exfalso. vm_compute in Hs. destruct Hs as [Hs _]. discriminate Hs.
  - rewrite Z.mod_small by lia. lia.
Qed.

(** A thread that has ended, or died, takes no further step. *)
Lemma run_stopped (r : Receiver) (p : pc) (ins : list Input)
    (r' : Receiver) (p' : pc) (evs : list Event) :
  match p with
  | Terminated | Crashed | Uncaught _ | NoThread => True
  | _ => False
  end ->
  Receiver.run r p ins = Some (r', p', evs) ->
  ins = [] /\ r' = r /\ p' = p /\ evs = [].
Proof.
  intros Hp H. destruct ins as [|i ins]; simpl in H.
  - simplify_eq. repeat split; reflexivity.
  - destruct p; try contradiction; simpl in H; discriminate.
Qed.

Ltac eqb_hyps :=
  repeat match goal with
         | E : negb _ = false |- _ => apply negb_false_iff in E
         | E : negb _ = true |- _ => apply negb_true_iff in E
         | E : (_ =? _) = true |- _ => apply Z.eqb_eq in E
         | E : (_ =? _) = false |- _ => apply Z.eqb_neq in E
         | E : (_ <? _) = true |- _ => apply Z.ltb_lt in E
         | E : (_ <? _) = false |- _ => apply Z.ltb_ge in E
         end.

(** One turn of the loop on a frame, whatever the collaborators do: the
    turn dispatches nothing and the thread stops, or it dispatches the
    frame, once and with the flag received, and [current_seqno_] is the
    frame's number. *)
Lemma step_frame_general (r : Receiver) (ps : bool) (pg : option Progress)
    (act : gcs_action) (pl : bool) (u h : option Z)
    (r1 : Receiver) (p1 : pc) (evs1 : list Event) :
  Receiver.step r (Streaming ps pg) (in_recv (recv_frame act pl) u h)
  = Some (r1, p1, evs1) ->
  (dispatches evs1 = [] /\ (p1 = Terminated \/ p1 = Crashed))
  \/ (exists m, dispatches evs1 = [(act, m, pl)]
                /\ act_type act <> GCS_ACT_UNKNOWN
                /\ accepted r act
                /\ current_seqno_ r1 = act_seqno_g act
                /\ first_seqno_ r1 = first_seqno_ r
                /\ (p1 = Terminated
                    \/ exists ps1 pr1, p1 = Streaming ps1 (Some pr1))).
Proof.
  intros H. unfold accepted. step_cases H; eqb_hyps;
    try (left; split; [reflexivity | auto]; fail);
    right; eexists; (split; [reflexivity|]); (split; [congruence|]);
    (split; [first [left; split; [assumption | lia]
                   | right; split; [assumption | congruence]]|]);
    (split; [congruence|]); (split; [reflexivity|]); eauto.
Qed.

(** The same turn on clean input. *)
Lemma step_frame_clean (r : Receiver) (ps : bool) (pg : option Progress)
    (act : gcs_action) (pl : bool)
    (r1 : Receiver) (p1 : pc) (evs1 : list Event) :
  act_type act <> GCS_ACT_UNKNOWN ->
  Receiver.step r (Streaming ps pg) (in_recv (recv_frame act pl) None None)
  = Some (r1, p1, evs1) ->
  p1 = Crashed
  \/ (p1 = Terminated /\ exists ec, ends evs1 = [ec] /\ ec <> 0)
  \/ (exists ps1 pr1 m,
         p1 = Streaming ps1 (Some pr1)
         /\ dispatches evs1 = [(act, m, pl)] /\ ends evs1 = []
         /\ r1 = set_current_seqno (act_seqno_g act) r
         /\ accepted r act).
Proof.
  intros Hty H. unfold accepted. step_cases H; eqb_hyps; try congruence;
    try (left; reflexivity);
    try (right; left; split; [reflexivity|]; eexists; split; [reflexivity|];
         vm_compute; discriminate);
    right; right; do 3 eexists; (split; [reflexivity|]);
    (split; [reflexivity|]); (split; [reflexivity|]);
    (split; [congruence|]);
    first [left; split; [assumption | lia]
          | right; split; [assumption | congruence]].
Qed.

(** The turn that reads the end of the stream. *)
Lemma step_frame_eof (r : Receiver) (ps : bool) (pg : option Progress)
    (act : gcs_action) (pl : bool) (u h : option Z)
    (r1 : Receiver) (p1 : pc) (evs1 : list Event) :
  act_type act = GCS_ACT_UNKNOWN ->
  Receiver.step r (Streaming ps pg) (in_recv (recv_frame act pl) u h)
  = Some (r1, p1, evs1) ->
  (pg = None /\ p1 = Crashed)
  \/ (pg <> None /\ p1 = Terminated /\ (r1, evs1) = Receiver.run_err r 0).
Proof.
  intros Hty H. unfold Receiver.step, Receiver.run_frame in H.
  rewrite Hty in H. destruct pg as [pr|].
  - right. destruct (Receiver.run_err r 0) as [rr ee]. simplify_eq.
    repeat split. discriminate.
  - left. simplify_eq. split; reflexivity.
Qed.

Lemma run_cons (r : Receiver) (p : pc) (i : Input) (ins : list Input)
    (r' : Receiver) (p' : pc) (evs : list Event) :
  Receiver.run r p (i :: ins) = Some (r', p', evs) ->
  exists r1 p1 evs1 evs2,
    Receiver.step r p i = Some (r1, p1, evs1)
    /\ Receiver.run r1 p1 ins = Some (r', p', evs2)
    /\ evs = evs1 ++ evs2.
Proof.
  cbn [Receiver.run]. intros H.
  destruct (Receiver.step r p i) as [[[r1 p1] evs1]|]; [|discriminate].
  destruct (Receiver.run r1 p1 ins) as [[[r2 p2] evs2]|] eqn:E2;
    [|discriminate].
  simplify_eq. exists r1, p1, evs1, evs2. auto.
Qed.

Lemma dispatched_seqnos_one (evs : list Event) (act : gcs_action)
    (m pl : bool) :
  dispatches evs = [(act, m, pl)] -> dispatched_seqnos evs = [act_seqno_g act].
Proof. unfold dispatched_seqnos. intros ->. reflexivity. Qed.

(** The streaming loop once [current_seqno_] holds the number [c] of the
    last frame: on clean input, ending with [ist_end(0)], it dispatches
    [c+1, ..., c'] and stops with [current_seqno_ = c'], which is not
    short of a positive [last_seqno_]. *)
Lemma stream_clean_run (ins : list Input) :
  forall (r : Receiver) (ps : bool) (pr : Progress)
         (r' : Receiver) (evs : list Event),
    valid_seqno (current_seqno_ r) ->
    Forall clean ins ->
    Receiver.run r (Streaming ps (Some pr)) ins = Some (r', Terminated, evs) ->
    ends evs = [0] ->
    exists c', current_seqno_ r <= c' /\ current_seqno_ r' = c'
               /\ dispatched_seqnos evs
                  = seqZ (current_seqno_ r + 1) (c' - current_seqno_ r)
               /\ (last_seqno_ r <= 0 \/ last_seqno_ r <= c').
Proof.
  induction ins as [|i ins IH]; intros r ps pr r' evs Hc Hcl H Hend.
  { simpl in H. discriminate. }
  apply run_cons in H as (r1 & p1 & evs1 & evs2 & E1 & E2 & ->).
  apply Forall_cons in Hcl as [Hi Hcl].
  destruct i as [| | |[act preload|code] [u|] [h|]]; simpl in Hi;
    try contradiction; try discriminate.
  destruct (decide (act_type act = GCS_ACT_UNKNOWN)) as [Hty|Hty].
  - (* the end of the stream *)
    apply (step_frame_eof _ _ _ _ _ _ _ _ _ _ Hty) in E1
      as [[? _]|(_ & -> & Herr)]; [discriminate|].
    apply run_stopped in E2 as (_ & -> & _ & ->); [|exact I].
    destruct (run_err_spec r 0) as (ec1 & Hev & Hec & _ & _ & Hcur & _).
    rewrite <- Herr in Hev, Hcur. simpl in Hev, Hcur. subst evs1.
    simpl in Hend. injection Hend as Hend.
    exists (current_seqno_ r). split; [lia|]. split; [exact Hcur|]. split.
    + rewrite Z.sub_diag. reflexivity.
    + rewrite Hend in Hec. change (0 =? EINTR) with false in Hec.
      simpl in Hec. rewrite andb_true_r in Hec.
      destruct (0 <? last_seqno_ r) eqn:E0; eqb_hyps; [|left; exact E0].
      destruct (current_seqno_ r <? last_seqno_ r) eqn:E3; eqb_hyps;
        [vm_compute in Hec; discriminate | right; exact E3].
  - (* a data frame *)
    apply (step_frame_clean _ _ _ _ _ _ _ _ Hty) in E1
      as [->|[[-> (ec & Hec & Hnz)]|
              (ps1 & pr1 & m & -> & Hd & He & -> & Hacc)]].
    + apply run_stopped in E2 as (_ & _ & ? & _); [discriminate | exact I].
    + apply run_stopped in E2 as (_ & _ & _ & ->); [|exact I].
      rewrite app_nil_r, Hec in Hend. congruence.
    + assert (Hv : valid_seqno (act_seqno_g act)) by (apply Hi; exact Hty).
      destruct Hacc as [[Hu _]|[_ Hs]].
      { unfold valid_seqno, WSREP_SEQNO_UNDEFINED in *. lia. }
      apply (wrap64_succ_valid _ _ Hc Hv) in Hs.
      rewrite ends_app, He in Hend. simpl in Hend.
      destruct (IH (set_current_seqno (act_seqno_g act) r) _ _ _ _
                  Hv Hcl E2 Hend)
        as (c' & Hle & Hcur & Hseq & Hlast).
      simpl in Hle, Hseq, Hlast.
      exists c'. split; [lia|]. split; [exact Hcur|]. split; [|exact Hlast].
      rewrite dispatched_seqnos_app, (dispatched_seqnos_one _ _ _ _ Hd), Hseq.
      simpl.
      rewrite (seqZ_cons (current_seqno_ r + 1) (c' - current_seqno_ r)) by lia.
      rewrite Hs. f_equal. f_equal; lia.
Qed.

(** The loop from its start, [current_seqno_] undefined and no progress
    object yet. *)
Lemma stream_clean_start (ins : list Input) (r : Receiver) (ps : bool)
    (r' : Receiver) (evs : list Event) :
  current_seqno_ r = WSREP_SEQNO_UNDEFINED ->
  Forall clean ins ->
  Receiver.run r (Streaming ps None) ins = Some (r', Terminated, evs) ->
  ends evs = [0] ->
  exists f c, f <= first_seqno_ r /\ f <= c
              /\ dispatched_seqnos evs = seqZ f (c - f + 1)
              /\ current_seqno_ r' = c
              /\ (last_seqno_ r <= 0 \/ last_seqno_ r <= c).
Proof.
  intros Hu Hcl H Hend. destruct ins as [|i ins]; [simpl in H; discriminate|].
  apply run_cons in H as (r1 & p1 & evs1 & evs2 & E1 & E2 & ->).
  apply Forall_cons in Hcl as [Hi Hcl].
  destruct i as [| | |[act preload|code] [u|] [h|]]; simpl in Hi;
    try contradiction; try discriminate.
  destruct (decide (act_type act = GCS_ACT_UNKNOWN)) as [Hty|Hty].
  - apply (step_frame_eof _ _ _ _ _ _ _ _ _ _ Hty) in E1
      as [[_ ->]|(Hpg & _)]; [|congruence].
    apply run_stopped in E2 as (_ & _ & ? & _); [discriminate | exact I].
  - apply (step_frame_clean _ _ _ _ _ _ _ _ Hty) in E1
      as [->|[[-> (ec & Hec & Hnz)]|
              (ps1 & pr1 & m & -> & Hd & He & -> & Hacc)]].
    + apply run_stopped in E2 as (_ & _ & ? & _); [discriminate | exact I].
    + apply run_stopped in E2 as (_ & _ & _ & ->); [|exact I].
      rewrite app_nil_r, Hec in Hend. congruence.
    + assert (Hv : valid_seqno (act_seqno_g act)) by (apply Hi; exact Hty).
      destruct Hacc as [[_ Hle]|[Hne _]]; [|congruence].
      rewrite ends_app, He in Hend. simpl in Hend.
      destruct (stream_clean_run
                  _ (set_current_seqno (act_seqno_g act) r) _ _ _ _
                  Hv Hcl E2 Hend)
        as (c' & Hle' & Hcur & Hseq & Hlast).
      simpl in Hle', Hseq, Hlast.
      exists (act_seqno_g act), c'.
      split; [exact Hle|]. split; [exact Hle'|].
      split; [|split; [exact Hcur | exact Hlast]].
      rewrite dispatched_seqnos_app, (dispatched_seqnos_one _ _ _ _ Hd), Hseq.
      simpl.
      rewrite (seqZ_cons (act_seqno_g act) (c' - act_seqno_g act + 1)) by lia.
      f_equal. f_equal; lia.
Qed.

Lemma session_from_rendezvous (ins : list Input) (r r' : Receiver)
    (evs : list Event) :
  interrupted_ r = false ->
  Forall clean ins ->
  Receiver.run r WaitingForSST ins = Some (r', Terminated, evs) ->
  ends evs = [0] ->
  consecutive_to_last r r' evs.
Proof.
  intros Hint Hcl H Hend. destruct ins as [|i ins]; [simpl in H; discriminate|].
  apply run_cons in H as (r1 & p1 & evs1 & evs2 & E1 & E2 & ->).
  apply Forall_cons in Hcl as [Hi Hcl].
  destruct i; try (simpl in E1; discriminate).
  simpl in E1. rewrite Hint in E1. simpl in E1. rewrite andb_true_r in E1.
  destruct (negb (ready_ r)); [discriminate|]. simplify_eq.
  simpl in Hend.
  apply (stream_clean_start
           _ (set_current_seqno WSREP_SEQNO_UNDEFINED r) _ _ _
           eq_refl Hcl E2 Hend).
Qed.

Lemma session_from_handshake (ins : list Input) (r r' : Receiver)
    (evs : list Event) :
  interrupted_ r = false ->
  Forall clean ins ->
  Receiver.run r Handshaking ins = Some (r', Terminated, evs) ->
  ends evs = [0] ->
  consecutive_to_last r r' evs.
Proof.
  intros Hint Hcl H Hend. destruct ins as [|i ins]; [simpl in H; discriminate|].
  apply run_cons in H as (r1 & p1 & evs1 & evs2 & E1 & E2 & ->).
  apply Forall_cons in Hcl as [Hi Hcl].
  destruct i as [| [code|] | |]; try (simpl in E1; discriminate);
    simpl in Hi; try contradiction.
  simpl in E1. simplify_eq. simpl in Hend.
  apply (session_from_rendezvous _ _ _ _ Hint Hcl E2 Hend).
Qed.

Lemma session_clean (ins : list Input) (r : Receiver) (p : pc)
    (r' : Receiver) (evs : list Event) :
  before_streaming p ->
  interrupted_ r = false ->
  Forall clean ins ->
  Receiver.run r p ins = Some (r', Terminated, evs) ->
  ends evs = [0] ->
  consecutive_to_last r r' evs.
Proof.
  intros Hp Hint Hcl H Hend. destruct p; try contradiction.
  - destruct ins as [|i ins]; [simpl in H; discriminate|].
    apply run_cons in H as (r1 & p1 & evs1 & evs2 & E1 & E2 & ->).
    apply Forall_cons in Hcl as [Hi Hcl].
    destruct i as [[code|] | | |]; try (simpl in E1; discriminate);
      simpl in Hi; try contradiction.
    simpl in E1. simplify_eq.
    assert (Hend' : ends evs2 = [0]) by exact Hend.
    destruct (session_from_handshake _ _ _ _ Hint Hcl E2 Hend')
      as (f & c & H1 & H2 & H3 & H4 & H5).
    exists f, c. repeat split; assumption.
  - apply (session_from_handshake _ _ _ _ Hint Hcl H Hend).
  - apply (session_from_rendezvous _ _ _ _ Hint Hcl H Hend).
Qed.

Lemma first_frame_rule_holds : first_frame_rule.
Proof.
  intros r ps pg act preload unser hres Hty Hu.
  unfold Receiver.run_frame. rewrite Hu. simpl.
  split; intros Hc.
  - apply Z.ltb_lt in Hc. rewrite Hc. destruct (act_type act); congruence.
  - apply Z.ltb_ge in Hc. rewrite Hc. rewrite Z.eqb_refl. simpl.
    eexists. split; [|destruct (act_type act); [reflexivity..|congruence]].
    reflexivity.
Qed.

Lemma next_frame_rule_holds : next_frame_rule.
Proof.
  intros r ps pr act preload unser hres Hty Hu r1.
  unfold Receiver.run_frame. apply Z.eqb_neq in Hu. rewrite Hu.
  split; intros Hc.
  - apply Z.eqb_neq in Hc. subst r1. rewrite Hc. simpl.
    destruct (act_type act); congruence.
  - apply Z.eqb_eq in Hc. subst r1. rewrite Hc. simpl.
    destruct (act_type act); congruence.
Qed.

Lemma rejection_report_holds : rejection_report.
Proof.
  intros r. unfold Receiver.run_err. simpl.
  destruct ((0 <? last_seqno_ r) && (current_seqno_ r <? last_seqno_ r))
    eqn:E.
  - apply andb_true_iff in E as [-> ->]. reflexivity.
  - apply andb_false_iff in E as [-> | ->]; simpl;
      [|rewrite andb_false_r]; reflexivity.
Qed.

(** C1 (amended). A receive session that reads clean input, is not
    interrupted and ends with [ist_end(0)] has dispatched exactly
    [f, f+1, ..., c] for some [f <= first_seqno_], without gap or
    duplicate, where [c] is the final [current_seqno_] and is not below a
    positive [last_seqno_] (it may be above it).  The first data frame is
    rejected, [ec = EINVAL], if its [seqno_g] is above [first_seqno_] and
    sets [current_seqno_] otherwise; each later frame adds one to
    [current_seqno_] and is rejected, [ec = EINVAL], if its [seqno_g]
    differs.  After a rejection [ist_end] gets [EINVAL], or [EPROTO] when
    [current_seqno_] is short of a positive [last_seqno_]. *)
Theorem session_seqnos (ins : list Input) (r : Receiver) (p : pc)
    (r' : Receiver) (evs : list Event) :
  before_streaming p ->
  interrupted_ r = false ->
  Forall clean ins ->
  Receiver.run r p ins = Some (r', Terminated, evs) ->
  ends evs = [0] ->
  consecutive_to_last r r' evs
  /\ first_frame_rule /\ next_frame_rule /\ rejection_report.
Proof.
  intros Hp Hint Hcl H Hend. split.
  - eapply session_clean; eassumption.
  - split; [apply first_frame_rule_holds|].
    split; [apply next_frame_rule_holds | apply rejection_report_holds].
Qed.

(** Settles [Forall clean] on a list of concrete inputs. *)
Ltac solve_clean :=
  repeat first [apply Forall_nil | apply Forall_cons; split];
  simpl; try exact I; intros;
  first [congruence | unfold valid_seqno, INT64_MAX; lia].

(** Scenario 2 of the specification: [prepare(5, 10)], [ready(5)], the donor
    sends 3, 4, ..., 10 and the end of the stream. *)
Lemma session_seqnos_witness :
  exists r' evs,
    Receiver.run (Receiver.ready 5 (Fixture.prepared 5 10)) Accepting
      ([in_accept None; in_handshake None; in_wakeup]
       ++ ((fun s => Fixture.frame s false) <$> [3; 4; 5; 6; 7; 8; 9; 10])
       ++ [Fixture.frame_eof])
    = Some (r', Terminated, evs)
    /\ dispatched_seqnos evs = [3; 4; 5; 6; 7; 8; 9; 10]
    /\ consecutive_to_last (Receiver.ready 5 (Fixture.prepared 5 10)) r' evs
    /\ first_frame_rule /\ next_frame_rule /\ rejection_report.
Proof.
  eexists _, _. split; [vm_compute; reflexivity|].
  split; [vm_compute; reflexivity|].
  apply (session_seqnos
           ([in_accept None; in_handshake None; in_wakeup]
            ++ ((fun s => Fixture.frame s false) <$> [3; 4; 5; 6; 7; 8; 9; 10])
            ++ [Fixture.frame_eof])
           (Receiver.ready 5 (Fixture.prepared 5 10)) Accepting).
  - exact I.
  - vm_compute. reflexivity.
  - solve_clean.
  - vm_compute. reflexivity.
  - vm_compute. reflexivity.
Defined.

(** C1 as stated fails: after [prepare(5, 6)] and [ready(5)] the donor
    sends 5, 6, 7 and the end of the stream.  The session ends with
    [ist_end(0)], the frames dispatched are 5, 6, 7, and no [f] makes that
    the list [f, ..., last] with [last = 6]. *)
Lemma session_seqnos_counterexample :
  exists r' evs,
    Receiver.run (Receiver.ready 5 (Fixture.prepared 5 6)) Accepting
      [in_accept None; in_handshake None; in_wakeup;
       Fixture.frame 5 false; Fixture.frame 6 false; Fixture.frame 7 false;
       Fixture.frame_eof]
    = Some (r', Terminated, evs)
    /\ interrupted_ (Receiver.ready 5 (Fixture.prepared 5 6)) = false
    /\ last_seqno_ (Receiver.ready 5 (Fixture.prepared 5 6)) = 6
    /\ ends evs = [0]
    /\ error_code_ r' = 0
    /\ dispatched_seqnos evs = [5; 6; 7]
    /\ ~ (exists f, f <= first_seqno_ (Receiver.ready 5 (Fixture.prepared 5 6))
                    /\ dispatched_seqnos evs
                       = seqZ f (last_seqno_
                                   (Receiver.ready 5 (Fixture.prepared 5 6))
                                 - f + 1)).
Proof.
  eexists _, _. split; [vm_compute; reflexivity|].
  do 5 (split; [vm_compute; reflexivity|]).
  intros (f & _ & Heq).
  change (last_seqno_ (Receiver.ready 5 (Fixture.prepared 5 6))) with 6 in Heq.
  change (dispatched_seqnos _) with [5; 6; 7] in Heq.
  assert (Hlen : length [5; 6; 7] = length (seqZ f (6 - f + 1)))
    by (rewrite <- Heq; reflexivity).
  rewrite length_seqZ in Hlen. simpl in Hlen.
  assert (Hf : f = 4) by lia. subst f.
  vm_compute in Heq. discriminate Heq.
Qed.

(** ** Properties of [finished] and [prepare] *)

(** C3 (what the code does). [finished()] before [ready()], with the
    receive thread waiting in the rendezvous: the thread wakes up
    interrupted, leaves with [ec = 0] and dispatches nothing, but with a
    positive [last_seqno_] that [current_seqno_] has not reached the
    termination code turns [ec] into [EPROTO]: [ist_end(EPROTO)] is called
    and [error_code_] is [EPROTO], not 0 or [EINTR]. *)
Theorem finished_before_ready (r : Receiver) :
  recv_addr_ r <> "" ->
  ready_ r = false ->
  0 < last_seqno_ r ->
  current_seqno_ r < last_seqno_ r ->
  exists r',
    Receiver.finished r WaitingForSST None [in_wakeup]
    = Some (r', Terminated,
            [loopback_connect; seqno_unlock; socket_close; ist_end EPROTO;
             thread_join; acceptor_close],
            ok (current_seqno_ r))
    /\ error_code_ r' = EPROTO.
Proof.
  intros Haddr Hready Hlast Hcur.
  unfold Receiver.finished.
  apply String.eqb_neq in Haddr. rewrite Haddr.
  apply Z.ltb_lt in Hlast, Hcur.
  do 3 (simpl; rewrite ?Hready, ?Hlast, ?Hcur).
  eexists. split; reflexivity.
Qed.

(** Scenario 5 of the specification: [prepare(5, 10)], the donor connects
    and the handshake is done, then [finished()] before [ready()]. *)
Lemma finished_before_ready_witness :
  Receiver.run (Fixture.prepared 5 10) Accepting
    [in_accept None; in_handshake None]
  = Some (Fixture.prepared 5 10, WaitingForSST, [acceptor_close])
  /\ exists r',
       Receiver.finished (Fixture.prepared 5 10) WaitingForSST None [in_wakeup]
       = Some (r', Terminated,
               [loopback_connect; seqno_unlock; socket_close; ist_end EPROTO;
                thread_join; acceptor_close],
               ok (current_seqno_ (Fixture.prepared 5 10)))
       /\ error_code_ r' = EPROTO.
Proof.
  split; [vm_compute; reflexivity|].
  apply (finished_before_ready (Fixture.prepared 5 10)).
  - vm_compute. discriminate.
  - vm_compute. reflexivity.
  - vm_compute. reflexivity.
  - vm_compute. reflexivity.
Defined.

(** The sibling path: the same cancellation while the thread is in the
    handshake, where (by the specification) the loopback connection makes
    [recv_handshake_response] throw [EINTR].  The termination code then
    passes [EINTR] on and leaves [error_code_] alone. *)
Example cancel_in_handshake_is_clean :
  exists r',
    Receiver.finished (Fixture.prepared 5 10) Handshaking None
      [in_handshake (Some EINTR)]
    = Some (r', Terminated,
            [loopback_connect; seqno_unlock; socket_close; ist_end EINTR;
             thread_join; acceptor_close],
            ok WSREP_SEQNO_UNDEFINED)
    /\ error_code_ r' = 0.
Proof. eexists. split; vm_compute; reflexivity. Qed.

(** C7. With neither [ist.recv_addr] nor the base host key set, [prepare]
    throws [gu::Exception] with [EINVAL]; it has bound no listener and
    started no thread (no event, the thread state as before), and of the
    receiver it has written [ready_], [version_] and [source_id_] only. *)
Theorem prepare_without_address (gu_URI : string -> option Receiver.URI)
    (from_string_uint16 : string -> option Z) (BASE_PORT_DEFAULT : Z)
    (r : Receiver) (p : pc) (first_seqno last_seqno version source_id : Z)
    (env : Receiver.PrepareEnv) :
  Config.get (conf_ r) RECV_ADDR = None ->
  Config.get (conf_ r) BASE_HOST_KEY = None ->
  Receiver.prepare gu_URI from_string_uint16 BASE_PORT_DEFAULT
    r p first_seqno last_seqno version source_id env
  = (set_source_id source_id (set_version version (set_ready false r)),
     p, [], throw (gu_Exception EINVAL)).
Proof.
  intros Ha Hb. destruct r. simpl in Ha, Hb.
  unfold Receiver.prepare, Receiver.IST_determine_recv_addr. simpl.
  rewrite Ha, Hb. reflexivity.
Qed.

Lemma prepare_without_address_witness :
  Receiver.prepare Fixture.gu_URI Fixture.from_string_uint16
    Fixture.BASE_PORT_DEFAULT (Receiver.init ∅) NoThread 5 10 7 0
    Fixture.env_ok
  = (set_source_id 0 (set_version 7 (set_ready false (Receiver.init ∅))),
     NoThread, [], throw (gu_Exception EINVAL)).
Proof.
  apply (prepare_without_address Fixture.gu_URI Fixture.from_string_uint16
           Fixture.BASE_PORT_DEFAULT (Receiver.init ∅) NoThread 5 10 7 0
           Fixture.env_ok); reflexivity.
Defined.

(** On a receiver that has not been prepared no thread exists and
    [current_seqno_] is as constructed. *)
Lemma never_prepared_inv (gu_URI : string -> option Receiver.URI)
    (from_string_uint16 : string -> option Z) (BASE_PORT_DEFAULT : Z)
    (r : Receiver) (p : pc) :
  never_prepared gu_URI from_string_uint16 BASE_PORT_DEFAULT r p ->
  p = NoThread /\ current_seqno_ r = WSREP_SEQNO_UNDEFINED.
Proof.
  induction 1 as [conf addr r Hnew
                 | r p f l v sid env r' p' evs e _ [-> IH] Hprep
                 | r p f _ [-> IH]
                 | r p rerr ins r' p' evs res _ [-> IH] Hfin].
  - unfold Receiver.new in Hnew.
    repeat case_match; simplify_eq; split; reflexivity.
  - unfold Receiver.prepare in Hprep.
    repeat case_match; simplify_eq; simpl; split; (reflexivity || assumption).
  - split; [reflexivity | exact IH].
  - unfold Receiver.finished, Receiver.interrupt, Receiver.join in Hfin.
    repeat case_match; simplify_eq; simpl; split; (reflexivity || assumption).
Qed.

(** With an empty [recv_addr_], [finished()] on a receiver on which
    [prepare] never succeeded connects to nothing, joins nothing, closes
    nothing (no event), leaves every field of the receiver as it was, and
    returns [current_seqno_], which is [WSREP_SEQNO_UNDEFINED]. *)
Lemma finished_unprepared (gu_URI : string -> option Receiver.URI)
    (from_string_uint16 : string -> option Z) (BASE_PORT_DEFAULT : Z)
    (r : Receiver) (p : pc) (resolve_err : option Z) (ins : list Input) :
  never_prepared gu_URI from_string_uint16 BASE_PORT_DEFAULT r p ->
  recv_addr_ r = "" ->
  Receiver.finished r p resolve_err ins
  = Some (r, p, [], ok WSREP_SEQNO_UNDEFINED).
Proof.
  intros Hnp Haddr. apply never_prepared_inv in Hnp as [-> Hcur].
  unfold Receiver.finished. rewrite Haddr, Hcur. reflexivity.
Qed.

(** So it is after [prepare] threw because the listener could not be
    opened: the handler of [asio::system_error] empties [recv_addr_]. *)
Example finished_unlistened :
  Fixture.prepare (Receiver.init Fixture.conf) NoThread 5 10 7 0
    (Receiver.mk_prepare_env (inr 98) None 0)
  = (unlistened, NoThread, [], throw (gu_Exception 98))
  /\ Receiver.finished unlistened NoThread None []
     = Some (unlistened, NoThread, [], ok WSREP_SEQNO_UNDEFINED).
Proof.
  split; [vm_compute; reflexivity|].
  apply (finished_unprepared Fixture.gu_URI Fixture.from_string_uint16
           Fixture.BASE_PORT_DEFAULT unlistened NoThread None []).
  - apply (np_prepare _ _ _ (Receiver.init Fixture.conf) NoThread 5 10 7 0
             (Receiver.mk_prepare_env (inr 98) None 0) _ _ []
             (gu_Exception 98)).
    + apply (np_new _ _ _ Fixture.conf None). reflexivity.
    + vm_compute. reflexivity.
  - vm_compute. reflexivity.
Qed.

(** [prepare] clears [ready_] first, whatever it does next. *)
Lemma prepare_not_ready (gu_URI : string -> option Receiver.URI)
    (from_string_uint16 : string -> option Z) (BASE_PORT_DEFAULT : Z)
    (r : Receiver) (p : pc) (first_seqno last_seqno version source_id : Z)
    (env : Receiver.PrepareEnv) (r' : Receiver) (p' : pc)
    (evs : list Event) (res : result string) :
  Receiver.prepare gu_URI from_string_uint16 BASE_PORT_DEFAULT
    r p first_seqno last_seqno version source_id env = (r', p', evs, res) ->
  ready_ r' = false.
Proof.
  unfold Receiver.prepare. intros H.
  repeat case_match; simplify_eq; reflexivity.
Qed.

(** C9 (what the code does). [prepare] stores [recv_addr_] before the calls
    that can throw (ist.cpp:323), and only the handler of
    [asio::system_error] and the failure of [gu_thread_create] empty it
    again.  When [prepare] throws anything else on a receiver on which it
    never succeeded (out of [gu::ssl_prepare_context], of a [gu::URI]
    constructor, of [IST_determine_recv_bind] or of [get_port]),
    [recv_addr_] stays set, and [finished()] takes the branch of a prepared
    receiver: it interrupts (connects to the address), sets [interrupted_],
    joins the thread that was never created, closes the acceptor, clears
    [running_] and [recv_addr_]; it returns [WSREP_SEQNO_UNDEFINED]. *)
Theorem finished_after_failed_prepare
    (gu_URI : string -> option Receiver.URI)
    (from_string_uint16 : string -> option Z) (BASE_PORT_DEFAULT : Z)
    (r : Receiver) (p : pc) (first_seqno last_seqno version source_id : Z)
    (env : Receiver.PrepareEnv) (r' : Receiver) (p' : pc)
    (evs : list Event) (e : exn) (ins : list Input) :
  never_prepared gu_URI from_string_uint16 BASE_PORT_DEFAULT r p ->
  Receiver.prepare gu_URI from_string_uint16 BASE_PORT_DEFAULT
    r p first_seqno last_seqno version source_id env
  = (r', p', evs, throw e) ->
  recv_addr_ r' <> "" ->
  never_prepared gu_URI from_string_uint16 BASE_PORT_DEFAULT r' p'
  /\ Receiver.finished r' p' None ins
     = Some (set_recv_addr ""
               (set_running false (set_interrupted true r')),
             NoThread,
             [loopback_connect; thread_join; acceptor_close],
             ok WSREP_SEQNO_UNDEFINED).
Proof.
  intros Hnp Hprep Haddr.
  pose proof (np_prepare _ _ _ _ _ _ _ _ _ _ _ _ _ _ Hnp Hprep) as Hnp'.
  split; [exact Hnp'|].
  pose proof (prepare_not_ready _ _ _ _ _ _ _ _ _ _ _ _ _ _ Hprep) as Hrdy.
  apply never_prepared_inv in Hnp' as [-> Hcur].
  unfold Receiver.finished.
  destruct (String.eqb (recv_addr_ r') "") eqn:E.
  { apply String.eqb_eq in E. contradiction. }
  simpl. rewrite Hrdy. simpl. rewrite Hcur. reflexivity.
Qed.

Lemma finished_after_failed_prepare_witness :
  Receiver.prepare ssl_URI Fixture.from_string_uint16
    Fixture.BASE_PORT_DEFAULT (Receiver.init ssl_conf) NoThread 5 10 7 0
    no_ssl_env
  = (unsecured, NoThread, [], throw (gu_Exception EINVAL))
  /\ recv_addr_ unsecured = "ssl://10.0.0.1:4568"
  /\ never_prepared ssl_URI Fixture.from_string_uint16
       Fixture.BASE_PORT_DEFAULT unsecured NoThread
  /\ Receiver.finished unsecured NoThread None []
     = Some (set_recv_addr ""
               (set_running false (set_interrupted true unsecured)),
             NoThread,
             [loopback_connect; thread_join; acceptor_close],
             ok WSREP_SEQNO_UNDEFINED).
Proof.
  split; [vm_compute; reflexivity|].
  split; [vm_compute; reflexivity|].
  apply (finished_after_failed_prepare ssl_URI Fixture.from_string_uint16
           Fixture.BASE_PORT_DEFAULT (Receiver.init ssl_conf) NoThread
           5 10 7 0 no_ssl_env unsecured NoThread [] (gu_Exception EINVAL)
           []).
  - apply (np_new _ _ _ ssl_conf None). reflexivity.
  - vm_compute. reflexivity.
  - vm_compute. discriminate.
Defined.

(** Hence [finished()] does not leave every receiver alone on which
    [prepare] never succeeded: on [unsecured] it emits three events and
    writes [interrupted_] and [recv_addr_]. *)
Example finished_unprepared_not_always :
  ~ (forall (r : Receiver) (p : pc) (ins : list Input),
        never_prepared ssl_URI Fixture.from_string_uint16
          Fixture.BASE_PORT_DEFAULT r p ->
        Receiver.finished r p None ins
        = Some (r, p, [], ok WSREP_SEQNO_UNDEFINED)).
Proof.
  intros H.
  specialize (H unsecured NoThread []).
  assert (Hnp : never_prepared ssl_URI Fixture.from_string_uint16
                  Fixture.BASE_PORT_DEFAULT unsecured NoThread).
  { apply (np_prepare _ _ _ (Receiver.init ssl_conf) NoThread 5 10 7 0
             no_ssl_env _ _ [] (gu_Exception EINVAL)).
    - apply (np_new _ _ _ ssl_conf None). reflexivity.
    - vm_compute. reflexivity. }
  specialize (H Hnp). vm_compute in H. discriminate H.
Qed.

(** ** Properties of the sender *)

Section SenderFacts.

Variable VER40 : Z.
Variable env : SendEnv.

Lemma ordered_frames_app (ws1 ws2 : list Wire) :
  ordered_frames (ws1 ++ ws2) = ordered_frames ws1 ++ ordered_frames ws2.
Proof. unfold ordered_frames. apply omap_app. Qed.

Lemma send_eof_frames (k : nat) :
  ordered_frames (fst (Sender.send_eof env k)) = [].
Proof. unfold Sender.send_eof. destruct (se_write_err env k); reflexivity. Qed.

Lemma send_batch_flagged (bufs : list Buffer) (last preload_start : Z) :
  forall k, Forall (flagged preload_start)
              (ordered_frames
                 (fst (Sender.send_batch env bufs last preload_start k))).
Proof.
  induction bufs as [|b bufs IH]; intros k; simpl; [constructor|].
  destruct (se_write_err env k); [constructor|].
  destruct (buf_seqno_g b =? last).
  - pose proof (send_eof_frames (S k)) as He.
    destruct (Sender.send_eof env (S k)) as [ws res]. simpl in *.
    rewrite He. constructor; [reflexivity | constructor].
  - specialize (IH (S k)).
    destruct (Sender.send_batch env bufs last preload_start (S k))
      as [ws e]. simpl in *.
    constructor; [reflexivity | exact IH].
Qed.

Lemma send_loop_flagged (caches : list GCache) :
  forall size first last preload_start k ws res,
    Sender.send_loop env caches size first last preload_start k
    = Some (ws, res) ->
    Forall (flagged preload_start) (ordered_frames ws).
Proof.
  induction caches as [|gc caches IH];
    intros size first last ps k ws res H; simpl in H; [discriminate|].
  destruct (Z.of_nat (length (take (Z.to_nat size) (gc size first))) >? 0);
    [|simplify_eq; constructor].
  pose proof (send_batch_flagged
                (take (Z.to_nat size) (gc size first)) last ps k) as Hb.
  destruct (Sender.send_batch env _ last ps k) as [ws1 [k'|res1]].
  - simpl in Hb.
    destruct (Sender.send_loop env caches _ _ last ps k')
      as [[ws2 res2]|] eqn:E; [|discriminate].
    simplify_eq. rewrite ordered_frames_app. apply Forall_app.
    split; [exact Hb | eapply IH; exact E].
  - simplify_eq. exact Hb.
Qed.

(** Every ordered frame [send] writes carries the flag
    [preload_start > 0 && seqno_g >= preload_start]. *)
Lemma send_flagged (s : Sender.t) (first last preload_start : Z)
    (ws : list Wire) (res : result unit) :
  Sender.send VER40 env s first last preload_start = Some (ws, res) ->
  Forall (flagged preload_start) (ordered_frames ws).
Proof.
  unfold Sender.send. intros H.
  destruct ((first >? last) && (Sender.version_ s <? VER40));
    [simplify_eq; constructor|].
  destruct (se_handshake env) as [ctrl|e]; [|simplify_eq; constructor].
  destruct (ctrl <? 0); [simplify_eq; constructor|].
  destruct ((first >? last) || ((first =? 0) && (last =? 0))).
  - pose proof (send_eof_frames 0) as He.
    destruct (Sender.send_eof env 0) as [ws0 res0]. simplify_eq.
    simpl in He. rewrite He. constructor.
  - destruct (Sender.send_loop env (se_caches env) _ first last
                preload_start 0) as [[ws1 res1]|] eqn:E; [|discriminate].
    simplify_eq. eapply send_loop_flagged; exact E.
Qed.

(** Without write errors, a batch in which no buffer has the number
    [last] is written to its end, and nothing but its frames. *)
Lemma send_batch_short (bufs : list Buffer) (last preload_start : Z) :
  (forall k, se_write_err env k = None) ->
  forall k ws e,
    Sender.send_batch env bufs last preload_start k = (ws, e) ->
    (forall b f, w_ordered b f ∈ ws -> buf_seqno_g b <> last) ->
    (exists k', e = Sender.batch_done k') /\ w_ctrl Ctrl.C_EOF ∉ ws.
Proof.
  intros Hw. induction bufs as [|b bufs IH]; intros k ws e H Hlast;
    simpl in H.
  - simplify_eq. split; [eauto | apply not_elem_of_nil].
  - rewrite Hw in H.
    destruct (buf_seqno_g b =? last) eqn:Eb.
    + exfalso. apply Z.eqb_eq in Eb.
      destruct (Sender.send_eof env (S k)) as [ws0 res0]. simplify_eq.
      eapply Hlast; [apply list_elem_of_here | reflexivity].
    + destruct (Sender.send_batch env bufs last preload_start (S k))
        as [ws1 e1] eqn:E. simplify_eq.
      destruct (IH _ _ _ E) as [Hk Hn].
      { intros b' f' Hin. eapply Hlast. apply list_elem_of_further, Hin. }
      split; [exact Hk|].
      intros Hin. apply elem_of_cons in Hin as [Hin|Hin];
        [discriminate | contradiction].
Qed.

Lemma send_loop_short (caches : list GCache) :
  (forall k, se_write_err env k = None) ->
  forall size first last preload_start k ws res,
    Sender.send_loop env caches size first last preload_start k
    = Some (ws, res) ->
    (forall b f, w_ordered b f ∈ ws -> buf_seqno_g b <> last) ->
    res = ok tt /\ w_ctrl Ctrl.C_EOF ∉ ws.
Proof.
  intros Hw. induction caches as [|gc caches IH];
    intros size first last ps k ws res H Hlast; simpl in H; [discriminate|].
  destruct (Z.of_nat (length (take (Z.to_nat size) (gc size first))) >? 0);
    [|simplify_eq; split; [reflexivity | apply not_elem_of_nil]].
  destruct (Sender.send_batch env _ last ps k) as [ws1 e1] eqn:Eb.
  destruct e1 as [k'|res1].
  - destruct (Sender.send_loop env caches _ _ last ps k')
      as [[ws2 res2]|] eqn:E; [|discriminate].
    simplify_eq.
    destruct (send_batch_short _ _ _ Hw _ _ _ Eb) as [_ Hn1].
    { intros b f Hin. eapply Hlast. apply elem_of_app. left. exact Hin. }
    destruct (IH _ _ _ _ _ _ _ E) as [Hr Hn2].
    { intros b f Hin. eapply Hlast. apply elem_of_app. right. exact Hin. }
    split; [exact Hr|].
    intros Hin. apply elem_of_app in Hin as [Hin|Hin]; contradiction.
  - simplify_eq.
    destruct (send_batch_short _ _ _ Hw _ _ _ Eb) as [[k' Hk] _].
    { exact Hlast. }
    discriminate.
Qed.

End SenderFacts.

(** C4 (what the code does). [send(first, last, _)] with [first <= last]:
    when the stream stops before a buffer with [seqno_g == last] has been
    written (a call of [seqno_get_buffers] has returned [n_read <= 0]) and
    no write has failed, [send] returns normally; it has thrown nothing
    and has not written the EOF frame either. *)
Theorem send_dry_cache_returns (VER40 : Z) (env : SendEnv) (s : Sender.t)
    (first last preload_start ctrl : Z) (ws : list Wire) (res : result unit) :
  se_handshake env = ok ctrl ->
  0 <= ctrl ->
  first <= last ->
  ~ (first = 0 /\ last = 0) ->
  (forall k, se_write_err env k = None) ->
  Sender.send VER40 env s first last preload_start = Some (ws, res) ->
  (forall b f, w_ordered b f ∈ ws -> buf_seqno_g b <> last) ->
  res = ok tt /\ w_ctrl Ctrl.C_EOF ∉ ws.
Proof.
  intros Hhs Hctrl Hfl Hz Hw H Hlast. unfold Sender.send in H.
  assert (E1 : (first >? last) = false)
    by (rewrite Z.gtb_ltb; apply Z.ltb_ge; lia).
  rewrite E1, Hhs in H. simpl in H.
  assert (E2 : (ctrl <? 0) = false) by (apply Z.ltb_ge; lia).
  rewrite E2 in H.
  assert (E3 : ((first =? 0) && (last =? 0)) = false).
  { apply andb_false_iff.
    destruct (Z.eqb_spec first 0); [|left; reflexivity].
    destruct (Z.eqb_spec last 0); [|right; reflexivity].
    exfalso. apply Hz. split; assumption. }
  rewrite E3 in H.
  destruct (Sender.send_loop env (se_caches env) _ first last preload_start 0)
    as [[ws1 res1]|] eqn:E; [|discriminate].
  simplify_eq.
  destruct (send_loop_short env _ Hw _ _ _ _ _ _ _ E Hlast) as [-> Hn].
  split; [reflexivity | exact Hn].
Qed.

(** [send(1, 3, 0)] over [dry_cache]: the first call of [seqno_get_buffers]
    fills two buffers, the second returns 0. *)
Lemma send_dry_cache_returns_witness :
  Sender.send 10 dry_env (Sender.mk 10 false) 1 3 0
  = Some ([w_ordered (Fixture.buffer 1) false;
           w_ordered (Fixture.buffer 2) false], ok tt)
  /\ ok tt = ok tt
  /\ w_ctrl Ctrl.C_EOF
     ∉ [w_ordered (Fixture.buffer 1) false; w_ordered (Fixture.buffer 2) false].
Proof.
  split; [vm_compute; reflexivity|].
  apply (send_dry_cache_returns 10 dry_env (Sender.mk 10 false) 1 3 0
           Ctrl.C_OK).
  - reflexivity.
  - vm_compute. discriminate.
  - lia.
  - lia.
  - reflexivity.
  - vm_compute. reflexivity.
  - intros b f Hin.
    repeat (apply elem_of_cons in Hin as [Hin|Hin];
            [injection Hin as -> _; vm_compute; discriminate|]).
    apply elem_of_nil in Hin. contradiction.
Defined.

(** The sender thread on the same input reports [join_seqno = last = 3],
    as it does after a complete stream. *)
Example run_async_sender_dry_cache :
  run_async_sender 10 dry_env
    (mk_async_sender 1%positive (Sender.mk 10 false) "tcp://10.0.0.2:4568" 1 3 0)
    (AsyncSenderMap.mk {[ 1%positive ]})
  = Some (mk_served
            [w_ordered (Fixture.buffer 1) false;
             w_ordered (Fixture.buffer 2) false]
            3 (AsyncSenderMap.mk (({[ 1%positive ]} : gset positive) ∖ {[ 1%positive ]}))
            true).
Proof. reflexivity. Qed.

(** C5 (amended). [send(first, last, _)] with [first > last] on a sender
    whose version is below [VER40] throws [EINVAL] and writes nothing
    whatever the peer would do: the test comes before the handshake, so
    this holds in every environment, also where the handshake would throw
    or be refused.  With [first == 0 && last == 0], or with [first > last]
    and a version of at least [VER40], once the handshake has succeeded
    and the socket takes the frame, [send] writes the EOF ctrl frame, no
    ordered frame, and returns normally. *)
Theorem send_nothing (VER40 : Z) (s : Sender.t)
    (first last preload_start : Z) :
  (first > last -> Sender.version_ s < VER40 ->
   forall env : SendEnv,
     Sender.send VER40 env s first last preload_start
     = Some ([], throw (gu_Exception EINVAL)))
  /\ ((first > last /\ VER40 <= Sender.version_ s)
      \/ (first = 0 /\ last = 0) ->
      forall (env : SendEnv) (ctrl : Z),
        se_handshake env = ok ctrl ->
        0 <= ctrl ->
        se_write_err env 0%nat = None ->
        Sender.send VER40 env s first last preload_start
        = Some ([w_ctrl Ctrl.C_EOF], ok tt)).
Proof.
  split.
  - intros Hgt Hlt env. unfold Sender.send.
    assert (E1 : (first >? last) && (Sender.version_ s <? VER40) = true).
    { apply andb_true_iff. split.
      - rewrite Z.gtb_ltb. apply Z.ltb_lt. lia.
      - apply Z.ltb_lt. exact Hlt. }
    rewrite E1. reflexivity.
  - intros Hcase env ctrl Hhs Hctrl Hw.
    unfold Sender.send, Sender.send_eof. rewrite Hhs, Hw.
    assert (E2 : (ctrl <? 0) = false) by (apply Z.ltb_ge; lia).
    rewrite E2.
    assert (E1 : (first >? last) && (Sender.version_ s <? VER40) = false).
    { apply andb_false_iff. destruct Hcase as [[_ Hv]|[-> ->]].
      - right. apply Z.ltb_ge. exact Hv.
      - left. reflexivity. }
    rewrite E1.
    assert (E3 : (first >? last) || ((first =? 0) && (last =? 0)) = true).
    { apply orb_true_iff. destruct Hcase as [[Hc _]|[-> ->]].
      - left. rewrite Z.gtb_ltb. apply Z.ltb_lt. lia.
      - right. reflexivity. }
    rewrite E3. reflexivity.
Qed.

Lemma send_nothing_witness :
  Sender.send 10 quiet_env (Sender.mk 9 false) 2 1 0
  = Some ([], throw (gu_Exception EINVAL))
  /\ Sender.send 10 reset_env (Sender.mk 9 false) 2 1 0
     = Some ([], throw (gu_Exception EINVAL))
  /\ Sender.send 10 refused_env (Sender.mk 9 false) 2 1 0
     = Some ([], throw (gu_Exception EINVAL))
  /\ Sender.send 10 quiet_env (Sender.mk 10 false) 2 1 0
     = Some ([w_ctrl Ctrl.C_EOF], ok tt)
  /\ Sender.send 10 quiet_env (Sender.mk 9 false) 0 0 0
     = Some ([w_ctrl Ctrl.C_EOF], ok tt).
Proof.
  split; [|split; [|split; [|split]]].
  - apply (proj1 (send_nothing 10 (Sender.mk 9 false) 2 1 0));
      simpl; lia.
  - apply (proj1 (send_nothing 10 (Sender.mk 9 false) 2 1 0));
      simpl; lia.
  - apply (proj1 (send_nothing 10 (Sender.mk 9 false) 2 1 0));
      simpl; lia.
  - apply (proj2 (send_nothing 10 (Sender.mk 10 false) 2 1 0)
             ltac:(left; simpl; lia) quiet_env Ctrl.C_OK);
      try reflexivity; simpl; lia.
  - apply (proj2 (send_nothing 10 (Sender.mk 9 false) 0 0 0)
             ltac:(right; split; reflexivity) quiet_env Ctrl.C_OK);
      try reflexivity; simpl; lia.
Defined.

(** From [VER40] on the same call does reach the handshake: what the
    handshake throws, or [EPROTO] for the peer's refusal, is what [send]
    throws. *)
Example send_nothing_handshake :
  Sender.send 10 reset_env (Sender.mk 10 false) 2 1 0
  = Some ([], throw (gu_Exception 104))
  /\ Sender.send 10 refused_env (Sender.mk 10 false) 2 1 0
     = Some ([], throw (gu_Exception EPROTO)).
Proof. split; reflexivity. Qed.

(** C5 as stated fails for every value [VER40] may have: a sender
    constructed with the version [VER40 - 1] and asked for [send(2, 1, 0)]
    throws [EINVAL] and writes no EOF frame, although the peer would
    answer the handshake and take the frame. *)
Lemma send_nothing_counterexample :
  Sender.send 10 quiet_env (Sender.mk 9 false) 2 1 0
  = Some ([], throw (gu_Exception EINVAL))
  /\ ~ (exists VER40 : Z,
          forall (env : SendEnv) (s : Sender.t) (first last preload_start ctrl : Z),
            se_handshake env = ok ctrl ->
            0 <= ctrl ->
            se_write_err env 0%nat = None ->
            first > last \/ (first = 0 /\ last = 0) ->
            Sender.send VER40 env s first last preload_start
            = Some ([w_ctrl Ctrl.C_EOF], ok tt)).
Proof.
  split; [reflexivity|].
  intros [VER40 H].
  specialize (H quiet_env (Sender.mk (VER40 - 1) false) 2 1 0 Ctrl.C_OK
                eq_refl ltac:(vm_compute; discriminate) eq_refl
                ltac:(left; lia)).
  unfold Sender.send in H. simpl in H.
  assert (E : (VER40 - 1 <? VER40) = true) by (apply Z.ltb_lt; lia).
  rewrite E in H. discriminate H.
Qed.

(** ** Properties of the sender map *)

(** C10. [remove(as, seqno)] takes exactly [as] out of [senders_] when it
    is there and throws [gu::NotFound] when it is not; [seqno] changes
    nothing.  So the thread of a sender leaves the same map behind, and
    deletes itself or not, whether [send] returned ([join_seqno = last]) or
    threw ([join_seqno = -errno]). *)
Theorem remove_ignores_seqno :
  (forall m a seqno,
      a ∈ AsyncSenderMap.senders_ m ->
      exists m', AsyncSenderMap.remove m a seqno = ok m'
                 /\ forall x, x ∈ AsyncSenderMap.senders_ m'
                              <-> x ∈ AsyncSenderMap.senders_ m /\ x <> a)
  /\ (forall m a seqno,
         a ∉ AsyncSenderMap.senders_ m ->
         AsyncSenderMap.remove m a seqno = throw gu_NotFound)
  /\ (forall m a seqno seqno',
         AsyncSenderMap.remove m a seqno = AsyncSenderMap.remove m a seqno')
  /\ (forall VER40 env a m sv,
         run_async_sender VER40 env a m = Some sv ->
         (exists ws,
             Sender.send VER40 env (as_sender a) (as_first a) (as_last a)
               (as_preload_start a) = Some (ws, ok tt)
             /\ sv_join_seqno sv = as_last a)
         \/ (exists ws errno,
                Sender.send VER40 env (as_sender a) (as_first a) (as_last a)
                  (as_preload_start a) = Some (ws, throw (gu_Exception errno))
                /\ sv_join_seqno sv = - errno))
  /\ (forall VER40 env env' a m sv sv',
         run_async_sender VER40 env a m = Some sv ->
         run_async_sender VER40 env' a m = Some sv' ->
         sv_map sv = sv_map sv' /\ sv_deleted sv = sv_deleted sv').
Proof.
  split; [|split; [|split; [|split]]].
  - intros m a seqno Hin. unfold AsyncSenderMap.remove.
    rewrite decide_True by exact Hin. eexists. split; [reflexivity|].
    intros x. simpl. set_solver.
  - intros m a seqno Hnin. unfold AsyncSenderMap.remove.
    rewrite decide_False by exact Hnin. reflexivity.
  - intros m a seqno seqno'. reflexivity.
  - intros VER40 env a m sv H. unfold run_async_sender in H.
    destruct (Sender.send VER40 env _ _ _ _) as [[ws res]|]; [|discriminate].
    destruct res as [[]|[errno|code| |]]; try discriminate.
    + left. exists ws. split; [reflexivity|].
      destruct (AsyncSenderMap.remove m (as_ptr a) (as_last a));
        simplify_eq; reflexivity.
    + right. exists ws, errno. split; [reflexivity|].
      destruct (AsyncSenderMap.remove m (as_ptr a) (- errno));
        simplify_eq; reflexivity.
  - intros VER40 env env' a m sv sv' H H'. unfold run_async_sender in H, H'.
    destruct (Sender.send VER40 env _ _ _ _) as [[ws res]|]; [|discriminate].
    destruct (Sender.send VER40 env' _ _ _ _) as [[ws' res']|]; [|discriminate].
    unfold AsyncSenderMap.remove in H, H'.
    destruct res as [[]|[errno|code| |]]; try discriminate;
      destruct res' as [[]|[errno'|code'| |]]; try discriminate;
      destruct (decide (as_ptr a ∈ AsyncSenderMap.senders_ m));
      simplify_eq; split; reflexivity.
Qed.

(** ** The preload flag over a session *)

Lemma dispatched_preloads_one (evs : list Event) (act : gcs_action)
    (m pl : bool) :
  dispatches evs = [(act, m, pl)] -> dispatched_preloads evs = [pl].
Proof. unfold dispatched_preloads. intros ->. reflexivity. Qed.

Lemma dispatched_none (evs : list Event) :
  dispatches evs = [] ->
  dispatched_seqnos evs = [] /\ dispatched_preloads evs = [].
Proof.
  unfold dispatched_seqnos, dispatched_preloads. intros ->.
  split; reflexivity.
Qed.

(** The frames the loop dispatches carry consecutive sequence numbers, and
    each the flag of its number, whatever ends the loop. *)
Lemma stream_consecutive (preload_start : Z) (ins : list Input) :
  forall (r : Receiver) (ps : bool) (pg : option Progress)
         (r' : Receiver) (p' : pc) (evs : list Event),
    Forall (flagged_input preload_start) ins ->
    current_seqno_ r = WSREP_SEQNO_UNDEFINED
    \/ valid_seqno (current_seqno_ r) ->
    Receiver.run r (Streaming ps pg) ins = Some (r', p', evs) ->
    exists (a : Z) (n : nat),
      (valid_seqno (current_seqno_ r) -> a = current_seqno_ r + 1)
      /\ dispatched_seqnos evs = seqZ a (Z.of_nat n)
      /\ dispatched_preloads evs
         = preload_of preload_start <$> seqZ a (Z.of_nat n).
Proof.
  induction ins as [|i ins IH]; intros r ps pg r' p' evs Hfl Hcur H.
  { simpl in H. injection H as <- <- <-.
    exists (current_seqno_ r + 1), 0%nat. repeat split; reflexivity. }
  apply run_cons in H as (r1 & p1 & evs1 & evs2 & E1 & E2 & ->).
  apply Forall_cons in Hfl as [Hi Hfl].
  destruct i as [| | |[act preload|code] u h]; try (simpl in E1; discriminate).
  - apply step_frame_general in E1
      as [[Hd Hp]|(m & Hd & Hty & Hacc & Hc1 & _ & Hp)].
    + (* nothing dispatched, the thread has stopped *)
      assert (Hnil : evs2 = []).
      { destruct Hp as [-> | ->];
          apply run_stopped in E2 as (_ & _ & _ & ->); (reflexivity || exact I). }
      subst evs2. rewrite app_nil_r.
      destruct (dispatched_none _ Hd) as [-> ->].
      exists (current_seqno_ r + 1), 0%nat. repeat split; reflexivity.
    + (* the frame is dispatched *)
      destruct (Hi Hty) as [Hv Hpl].
      assert (Hstart : valid_seqno (current_seqno_ r)
                       -> act_seqno_g act = current_seqno_ r + 1).
      { intros Hvr. destruct Hacc as [[Hu _]|[_ Hs]].
        - unfold valid_seqno, WSREP_SEQNO_UNDEFINED in *. lia.
        - apply (wrap64_succ_valid _ _ Hvr Hv Hs). }
      assert (Htail : exists n : nat,
                 dispatched_seqnos evs2
                 = seqZ (act_seqno_g act + 1) (Z.of_nat n)
                 /\ dispatched_preloads evs2
                    = preload_of preload_start
                      <$> seqZ (act_seqno_g act + 1) (Z.of_nat n)).
      { destruct Hp as [-> | (ps1 & pr1 & ->)].
        - apply run_stopped in E2 as (_ & _ & _ & ->); [|exact I].
          exists 0%nat. split; reflexivity.
        - destruct (IH r1 _ _ _ _ _ Hfl
                      ltac:(right; rewrite Hc1; exact Hv) E2)
            as (a & n & Ha & Hs & Hp).
          rewrite Hc1 in Ha. rewrite (Ha Hv) in Hs, Hp.
          exists n. split; assumption. }
      destruct Htail as (n & Hs & Hp2).
      exists (act_seqno_g act), (S n). split; [exact Hstart|].
      rewrite dispatched_seqnos_app, dispatched_preloads_app.
      rewrite (dispatched_seqnos_one _ _ _ _ Hd).
      rewrite (dispatched_preloads_one _ _ _ _ Hd).
      rewrite Hs, Hp2.
      rewrite (seqZ_cons (act_seqno_g act) (Z.of_nat (S n))) by lia.
      replace (Z.pred (Z.of_nat (S n))) with (Z.of_nat n) by lia.
      replace (Z.succ (act_seqno_g act)) with (act_seqno_g act + 1) by lia.
      split; [reflexivity|]. simpl. rewrite <- Hpl. reflexivity.
  - (* [recv_ordered] throws *)
    simpl in E1.
    destruct (Receiver.run_err r code) as [rr ee] eqn:Ee. simplify_eq.
    apply run_stopped in E2 as (_ & _ & _ & ->); [|exact I].
    rewrite app_nil_r.
    pose proof (run_err_spec r code) as (ec1 & Hev & _).
    rewrite Ee in Hev. simpl in Hev. subst ee.
    exists (current_seqno_ r + 1), 0%nat. repeat split; reflexivity.
Qed.

Lemma all_true_replicate (l : list bool) :
  Forall (fun b => b = true) l -> l = replicate (length l) true.
Proof.
  induction 1 as [|b l -> _ IH]; simpl; [reflexivity|]. f_equal. exact IH.
Qed.

(** The sender's flag is monotone in the sequence number, so over
    consecutive numbers it turns on at most once. *)
Lemma preload_of_seqZ (preload_start : Z) (n : nat) :
  forall a, nondecreasing (preload_of preload_start <$> seqZ a (Z.of_nat n)).
Proof.
  induction n as [|n IH]; intros a.
  { exists 0%nat, 0%nat. reflexivity. }
  rewrite (seqZ_cons a (Z.of_nat (S n))) by lia.
  replace (Z.pred (Z.of_nat (S n))) with (Z.of_nat n) by lia.
  rewrite fmap_cons.
  destruct (preload_of preload_start a) eqn:Ea.
  - exists 0%nat, (S (length (seqZ (Z.succ a) (Z.of_nat n)))).
    simpl. f_equal.
    rewrite <- (length_fmap (preload_of preload_start)).
    apply all_true_replicate. apply Forall_fmap, Forall_forall.
    intros x Hx. apply elem_of_seqZ in Hx. simpl.
    unfold preload_of in *. apply andb_true_iff in Ea as [E1 E2].
    apply andb_true_iff. split; [exact E1|].
    rewrite Z.geb_leb in *. apply Z.leb_le in E2. apply Z.leb_le. lia.
  - destruct (IH (Z.succ a)) as (k & m & ->).
    exists (S k), m. reflexivity.
Qed.

(** What a sender flags correctly, a receiver reads flagged correctly. *)
Lemma delivers_flagged (preload_start : Z) (ws : list Wire)
    (ins : list Input) :
  delivers ws ins ->
  Forall (flagged preload_start) (ordered_frames ws) ->
  Forall (fun bf => valid_seqno (buf_seqno_g (fst bf))) (ordered_frames ws) ->
  Forall (flagged_input preload_start) ins.
Proof.
  induction 1 as [ws | w ws u h ins _ IH]; intros Hfl Hv; [constructor|].
  destruct w as [b f|code]; simpl in Hfl, Hv.
  - apply Forall_cons in Hfl as [Hf Hfl]. apply Forall_cons in Hv as [Hb Hv].
    constructor; [|exact (IH Hfl Hv)].
    simpl. intros _. split; [exact Hb | exact Hf].
  - constructor; [|exact (IH Hfl Hv)].
    simpl. destruct (code =? Ctrl.C_EOF); simpl; [|exact I].
    intros Hty. exfalso. apply Hty. reflexivity.
Qed.

(** C6. In a session, the receive thread reading from the rendezvous on
    what [send] wrote, the preload flags of the frames dispatched are
    non-decreasing: false, ..., false, true, ..., true.  Every ordered
    frame [send] writes carries
    [preload_start > 0 && seqno_g >= preload_start], and whatever frame
    the receiver dispatches it dispatches with the flag received. *)
Theorem preload_monotone (VER40 : Z) (env : SendEnv) (s : Sender.t)
    (first last preload_start : Z) (ws : list Wire) (res : result unit)
    (r : Receiver) (ins : list Input)
    (r' : Receiver) (p' : pc) (evs : list Event) :
  Sender.send VER40 env s first last preload_start = Some (ws, res) ->
  Forall (fun bf => valid_seqno (buf_seqno_g (fst bf))) (ordered_frames ws) ->
  delivers ws ins ->
  Receiver.run r WaitingForSST (in_wakeup :: ins) = Some (r', p', evs) ->
  nondecreasing (dispatched_preloads evs)
  /\ Forall (flagged preload_start) (ordered_frames ws)
  /\ (forall r0 ps0 pg act preload unser hres r1 p1 evs1,
         Receiver.step r0 (Streaming ps0 pg)
           (in_recv (recv_frame act preload) unser hres)
         = Some (r1, p1, evs1) ->
         Forall (fun d => fst (fst d) = act /\ snd d = preload)
           (dispatches evs1)).
Proof.
  intros Hsend Hv Hdel H.
  pose proof (send_flagged _ _ _ _ _ _ _ _ Hsend) as Hfl.
  split; [|split; [exact Hfl|]].
  - apply run_cons in H as (r1 & p1 & evs1 & evs2 & E1 & E2 & ->).
    simpl in E1.
    destruct (negb (ready_ r) && negb (interrupted_ r)); [discriminate|].
    destruct (interrupted_ r).
    + destruct (Receiver.run_err r 0) as [rr ee] eqn:Ee. simplify_eq.
      apply run_stopped in E2 as (_ & _ & _ & ->); [|exact I].
      pose proof (run_err_spec r 0) as (ec1 & Hev & _).
      rewrite Ee in Hev. simpl in Hev. subst ee.
      exists 0%nat, 0%nat. reflexivity.
    + simplify_eq.
      destruct (stream_consecutive preload_start ins
                  (set_current_seqno WSREP_SEQNO_UNDEFINED r) _ _ _ _ _
                  (delivers_flagged _ _ _ Hdel Hfl Hv)
                  ltac:(left; reflexivity) E2)
        as (a & n & _ & _ & Hp).
      simpl. rewrite Hp. apply preload_of_seqZ.
  - clear. intros r0 ps0 pg act preload unser hres r1 p1 evs1 H.
    apply step_frame_general in H as [[-> _]|(m & -> & _)].
    + constructor.
    + constructor; [split; reflexivity | constructor].
Qed.

(** [send(3, 6, 5)] to a receiver prepared for 3..6: the frames 3 and 4 go
    out and are dispatched with [preload = false], 5 and 6 with
    [preload = true]. *)
Lemma preload_monotone_witness :
  Sender.send 10 full_env (Sender.mk 10 false) 3 6 5
  = Some ([w_ordered (Fixture.buffer 3) false;
           w_ordered (Fixture.buffer 4) false;
           w_ordered (Fixture.buffer 5) true;
           w_ordered (Fixture.buffer 6) true;
           w_ctrl Ctrl.C_EOF], ok tt)
  /\ nondecreasing [false; false; true; true].
Proof.
  split; [vm_compute; reflexivity|].
  refine (proj1 (preload_monotone 10 full_env (Sender.mk 10 false) 3 6 5
                   [w_ordered (Fixture.buffer 3) false;
                    w_ordered (Fixture.buffer 4) false;
                    w_ordered (Fixture.buffer 5) true;
                    w_ordered (Fixture.buffer 6) true;
                    w_ctrl Ctrl.C_EOF] (ok tt)
                   (Receiver.ready 3 (Fixture.prepared 3 6))
                   ((fun w => in_recv (recv_ordered w) None None)
                      <$> [w_ordered (Fixture.buffer 3) false;
                           w_ordered (Fixture.buffer 4) false;
                           w_ordered (Fixture.buffer 5) true;
                           w_ordered (Fixture.buffer 6) true;
                           w_ctrl Ctrl.C_EOF])
                   _ Terminated
                   [ist_trx (Fixture.ws 3) true false;
                    ist_trx (Fixture.ws 4) true false;
                    ist_trx (Fixture.ws 5) true true;
                    ist_trx (Fixture.ws 6) true true;
                    seqno_unlock; socket_close; ist_end 0]
                   _ _ _ _)).
  - vm_compute. reflexivity.
  - simpl. repeat constructor; unfold valid_seqno, INT64_MAX; simpl; lia.
  - simpl. repeat constructor.
  - vm_compute. reflexivity.
Defined.

(** Removing 1 from [two_senders] gives the same map for [join_seqno = 3]
    and for [join_seqno = -EPROTO]; removing 3 throws. *)
Lemma remove_ignores_seqno_witness :
  (exists m',
      AsyncSenderMap.remove two_senders 1%positive 3 = ok m'
      /\ forall x, x ∈ AsyncSenderMap.senders_ m'
                   <-> x ∈ AsyncSenderMap.senders_ two_senders
                       /\ x <> 1%positive)
  /\ AsyncSenderMap.remove two_senders 3%positive 3 = throw gu_NotFound
  /\ AsyncSenderMap.remove two_senders 1%positive 3
     = AsyncSenderMap.remove two_senders 1%positive (- EPROTO).
Proof.
  destruct remove_ignores_seqno as (H1 & H2 & H3 & _).
  split; [|split].
  - apply (H1 two_senders).
    apply (bool_decide_unpack (1%positive ∈ AsyncSenderMap.senders_ two_senders)).
    vm_compute. exact I.
  - apply (H2 two_senders).
    apply (bool_decide_unpack (3%positive ∉ AsyncSenderMap.senders_ two_senders)).
    vm_compute. exact I.
  - apply H3.
Defined.

(** * Further properties of the code *)

(** ** The receive thread: [ist_end] and the fields written at the end *)

(** What a step that ends the thread leaves: [ist_end] as the last event,
    [running_] cleared, and the code of [ist_end] in [error_code_] unless
    it is [EINTR]. *)
Lemma step_terminated (r : Receiver) (p : pc) (i : Input)
    (r1 : Receiver) (evs1 : list Event) :
  Receiver.step r p i = Some (r1, Terminated, evs1) ->
  exists evs0 ec,
    evs1 = evs0 ++ [ist_end ec] /\ ends evs0 = []
    /\ running_ r1 = false
    /\ error_code_ r1 = (if ec =? EINTR then error_code_ r else ec).
Proof.
  intros H. step_cases H;
    first [ eexists [seqno_unlock; socket_close], _; split; [reflexivity|]
          | eexists [_; seqno_unlock; socket_close], _; split; [reflexivity|] ];
    (split; [reflexivity|]);
    (split; [reflexivity|]); eqb_hyps;
    repeat match goal with
           | |- context [?a =? ?b] =>
               destruct (Z.eqb_spec a b); try congruence; try lia
           end; try reflexivity; try congruence;
    match goal with
    | e : _ = EINTR |- _ => vm_compute in e; discriminate e
    end.
Qed.

(** A step that does not end the thread calls no [ist_end] and leaves
    [running_] and [error_code_] alone. *)
Lemma step_going (r : Receiver) (p : pc) (i : Input)
    (r1 : Receiver) (p1 : pc) (evs1 : list Event) :
  Receiver.step r p i = Some (r1, p1, evs1) ->
  p1 <> Terminated ->
  ends evs1 = [] /\ running_ r1 = running_ r
  /\ error_code_ r1 = error_code_ r.
Proof.
  intros H Hp. step_cases H; try congruence; repeat split; reflexivity.
Qed.

Lemma run_end_spec (ins : list Input) :
  forall (r : Receiver) (p : pc) (r' : Receiver) (p' : pc)
         (evs : list Event),
    Receiver.run r p ins = Some (r', p', evs) ->
    p <> Terminated ->
    (p' = Terminated ->
     exists evs0 ec,
       evs = evs0 ++ [ist_end ec] /\ ends evs0 = []
       /\ running_ r' = false
       /\ error_code_ r' = (if ec =? EINTR then error_code_ r else ec))
    /\ (p' <> Terminated ->
        ends evs = [] /\ running_ r' = running_ r
        /\ error_code_ r' = error_code_ r).
Proof.
  induction ins as [|i ins IH]; intros r p r' p' evs H Hp.
  { simpl in H. injection H as <- <- <-. split; [congruence|].
    intros _. repeat split; reflexivity. }
  apply run_cons in H as (r1 & p1 & evs1 & evs2 & E1 & E2 & ->).
  assert (Hdec : p1 = Terminated \/ p1 <> Terminated)
    by (destruct p1; first [left; reflexivity | right; discriminate]).
  destruct Hdec as [->|Hp1].
  - apply run_stopped in E2 as (_ & -> & -> & ->); [|exact I].
    rewrite app_nil_r. split; [|congruence]. intros _.
    apply step_terminated in E1. exact E1.
  - destruct (step_going _ _ _ _ _ _ E1 Hp1) as (He & Hr & Hc).
    destruct (IH _ _ _ _ _ E2 Hp1) as [IH1 IH2]. split.
    + intros Hp'. destruct (IH1 Hp') as (evs0 & ec & -> & He0 & Hr' & Hc').
      exists (evs1 ++ evs0), ec. rewrite app_assoc. split; [reflexivity|].
      rewrite ends_app, He, He0. split; [reflexivity|].
      split; [exact Hr'|]. rewrite Hc', Hc. reflexivity.
    + intros Hp'. destruct (IH2 Hp') as (He2 & Hr2 & Hc2).
      rewrite ends_app, He, He2, Hr2, Hc2. repeat split; assumption.
Qed.

(** X1. A receive thread calls [ist_end] exactly once, as the last thing it
    asks of the handler, when it ends, and not at all before: no frame is
    dispatched after [ist_end]. *)
Theorem ist_end_once (r : Receiver) (p : pc) (ins : list Input)
    (r' : Receiver) (p' : pc) (evs : list Event) :
  Receiver.run r p ins = Some (r', p', evs) ->
  p <> Terminated ->
  (p' = Terminated ->
   exists evs0 ec, evs = evs0 ++ [ist_end ec] /\ ends evs0 = [])
  /\ (p' <> Terminated -> ends evs = []).
Proof.
  intros H Hp. destruct (run_end_spec _ _ _ _ _ _ H Hp) as [H1 H2]. split.
  - intros Hp'. destruct (H1 Hp') as (evs0 & ec & He & He0 & _).
    exists evs0, ec. split; assumption.
  - intros Hp'. apply (H2 Hp').
Qed.

Lemma ist_end_once_witness :
  exists r',
    Receiver.run (Receiver.ready 5 (Fixture.prepared 5 6)) Accepting
      [in_accept None; in_handshake None; in_wakeup;
       Fixture.frame 5 false; Fixture.frame 7 false]
    = Some (r', Terminated,
            [acceptor_close; ist_trx (Fixture.ws 5) true false;
             seqno_unlock; socket_close] ++ [ist_end EINVAL])
    /\ ((Terminated = Terminated ->
         exists evs0 ec,
           [acceptor_close; ist_trx (Fixture.ws 5) true false;
            seqno_unlock; socket_close] ++ [ist_end EINVAL]
           = evs0 ++ [ist_end ec] /\ ends evs0 = [])
        /\ (Terminated <> Terminated ->
            ends ([acceptor_close; ist_trx (Fixture.ws 5) true false;
                   seqno_unlock; socket_close] ++ [ist_end EINVAL]) = [])).
Proof.
  eexists. split; [vm_compute; reflexivity|].
  eapply (ist_end_once (Receiver.ready 5 (Fixture.prepared 5 6)) Accepting
            [in_accept None; in_handshake None; in_wakeup;
             Fixture.frame 5 false; Fixture.frame 7 false]).
  - vm_compute. reflexivity.
  - discriminate.
Defined.

(** X2. When the receive thread ends, [running_] is false and
    [error_code_] holds the code given to [ist_end], except that [EINTR]
    is never stored: then [error_code_] is what it was.  Until the thread
    ends it writes neither field. *)
Theorem terminated_fields (r : Receiver) (p : pc) (ins : list Input)
    (r' : Receiver) (p' : pc) (evs : list Event) :
  Receiver.run r p ins = Some (r', p', evs) ->
  p <> Terminated ->
  (p' = Terminated ->
   exists ec,
     last evs = Some (ist_end ec)
     /\ running_ r' = false
     /\ (ec <> EINTR -> error_code_ r' = ec)
     /\ (ec = EINTR -> error_code_ r' = error_code_ r))
  /\ (p' <> Terminated ->
      running_ r' = running_ r /\ error_code_ r' = error_code_ r).
Proof.
  intros H Hp. destruct (run_end_spec _ _ _ _ _ _ H Hp) as [H1 H2]. split.
  - intros Hp'. destruct (H1 Hp') as (evs0 & ec & -> & _ & Hr & Hc).
    exists ec. split; [apply last_snoc|]. split; [exact Hr|].
    destruct (Z.eqb_spec ec EINTR); split; intros; congruence.
  - intros Hp'. destruct (H2 Hp') as (_ & Hr & Hc). split; assumption.
Qed.

Lemma terminated_fields_witness :
  exists r',
    Receiver.run (Fixture.prepared 5 10) Handshaking [in_handshake (Some EINTR)]
    = Some (r', Terminated, [seqno_unlock; socket_close; ist_end EINTR])
    /\ running_ (Fixture.prepared 5 10) = true
    /\ running_ r' = false
    /\ error_code_ r' = error_code_ (Fixture.prepared 5 10).
Proof.
  eexists. split; [vm_compute; reflexivity|].
  split; [vm_compute; reflexivity|].
  destruct (terminated_fields (Fixture.prepared 5 10) Handshaking
              [in_handshake (Some EINTR)] _ Terminated
              [seqno_unlock; socket_close; ist_end EINTR]
              ltac:(vm_compute; reflexivity) ltac:(discriminate))
    as [H _].
  destruct (H eq_refl) as (ec & Hl & Hr & _ & Hc).
  simpl in Hl. injection Hl as <-.
  split; [exact Hr | exact (Hc eq_refl)].
Defined.

(** ** The receive thread: a stream in order is taken whole *)

Lemma wrap64_small (z : Z) : INT64_MIN <= z <= INT64_MAX -> wrap64 z = z.
Proof.
  unfold wrap64, INT64_MIN, INT64_MAX. intros H.
  rewrite Z.mod_small by lia. lia.
Qed.

(** The turn of the loop on the frame it expects. *)
Lemma step_accept (r : Receiver) (ps : bool) (pg : option Progress)
    (a : gcs_action) (pl : bool) :
  act_type a <> GCS_ACT_UNKNOWN ->
  (current_seqno_ r = WSREP_SEQNO_UNDEFINED /\ pg = None
   /\ act_seqno_g a <= first_seqno_ r)
  \/ (current_seqno_ r <> WSREP_SEQNO_UNDEFINED /\ pg <> None
      /\ act_seqno_g a = wrap64 (current_seqno_ r + 1)) ->
  exists ps1 pr1 evs1,
    Receiver.step r (Streaming ps pg) (in_recv (recv_frame a pl) None None)
    = Some (set_current_seqno (act_seqno_g a) r, Streaming ps1 (Some pr1), evs1)
    /\ dispatches evs1 = [(a, act_seqno_g a >=? first_seqno_ r, pl)]
    /\ ends evs1 = [].
Proof.
  intros Hty Hacc. unfold Receiver.step, Receiver.run_frame.
  destruct Hacc as [(Hu & -> & Hle)|(Hu & Hpg & Hs)].
  - rewrite Hu. simpl. apply Z.ltb_ge in Hle. rewrite Hle, Z.eqb_refl. simpl.
    unfold Receiver.run_dispatch. simpl.
    destruct (act_type a); try congruence;
      [destruct (0 <? act_size a)|]; do 3 eexists;
      (split; [reflexivity|]); split; reflexivity.
  - apply Z.eqb_neq in Hu. rewrite Hu. destruct pg as [pr|]; [|congruence].
    simpl. rewrite <- Hs, Z.eqb_refl. simpl.
    unfold Receiver.run_dispatch. simpl.
    destruct (act_type a); try congruence;
      [destruct (0 <? act_size a)|]; do 3 eexists;
      (split; [reflexivity|]); split; reflexivity.
Qed.

Lemma stream_accepted_from (frames : list (gcs_action * bool)) :
  forall (r : Receiver) (ps : bool) (pr : Progress),
    valid_seqno (current_seqno_ r) ->
    current_seqno_ r + Z.of_nat (length frames) <= INT64_MAX ->
    (fun x => act_seqno_g (fst x)) <$> frames
    = seqZ (current_seqno_ r + 1) (Z.of_nat (length frames)) ->
    Forall (fun x => act_type (fst x) <> GCS_ACT_UNKNOWN) frames ->
    exists r' evs,
      Receiver.run r (Streaming ps (Some pr)) (stream_inputs frames)
      = Some (r', Terminated, evs)
      /\ dispatches evs
         = (fun x => (fst x, act_seqno_g (fst x) >=? first_seqno_ r, snd x))
           <$> frames
      /\ current_seqno_ r' = current_seqno_ r + Z.of_nat (length frames)
      /\ ends evs
         = [end_code r (current_seqno_ r + Z.of_nat (length frames))].
Proof.
  induction frames as [|[a pl] frames IH]; intros r ps pr Hv Hmax Hseq Hty.
  - destruct (run_err_spec r 0) as (ec1 & Hev & Hec & _ & _ & Hcur & _).
    exists (fst (Receiver.run_err r 0)), (snd (Receiver.run_err r 0)).
    split.
    { unfold stream_inputs. cbn [fmap list_fmap app Receiver.run].
      unfold Receiver.step, Receiver.run_frame. cbn [act_type eof_action].
      destruct (Receiver.run_err r 0) as [rr ee]. simpl.
      rewrite app_nil_r. reflexivity. }
    rewrite Hev. split; [reflexivity|].
    simpl length. rewrite Z.add_0_r. split; [exact Hcur|].
    unfold end_code. rewrite Hec. simpl. rewrite andb_true_r. reflexivity.
  - apply Forall_cons in Hty as [Ha Hty]. simpl in Ha.
    rewrite fmap_cons in Hseq. simpl length in *.
    rewrite (seqZ_cons (current_seqno_ r + 1)) in Hseq by lia.
    injection Hseq as Hs Hseq. simpl in Hs.
    replace (Z.pred (Z.of_nat (S (length frames))))
      with (Z.of_nat (length frames)) in Hseq by lia.
    assert (Hw : act_seqno_g a = wrap64 (current_seqno_ r + 1)).
    { rewrite wrap64_small; [exact Hs|].
      unfold valid_seqno, INT64_MIN, INT64_MAX in *. lia. }
    destruct (step_accept r ps (Some pr) a pl Ha) as (ps1 & pr1 & evs1 & E1 & Hd & He).
    { right. split; [|split; [discriminate | exact Hw]].
      unfold valid_seqno, WSREP_SEQNO_UNDEFINED in *. lia. }
    destruct (IH (set_current_seqno (act_seqno_g a) r) ps1 pr1)
      as (r' & evs2 & E2 & Hd2 & Hc2 & He2).
    { simpl. rewrite Hs. unfold valid_seqno in *. lia. }
    { simpl. lia. }
    { simpl. rewrite Hs. exact Hseq. }
    { exact Hty. }
    exists r', (evs1 ++ evs2). split.
    + unfold stream_inputs. rewrite fmap_cons. simpl.
      unfold stream_inputs in E2. simpl in E1. rewrite E1, E2. reflexivity.
    + rewrite dispatches_app, Hd, Hd2, ends_app, He, He2, Hc2. simpl.
      split; [reflexivity|]. rewrite Hs.
      split; [lia|]. unfold end_code. simpl.
      replace (current_seqno_ r + 1 + Z.of_nat (length frames))
        with (current_seqno_ r + Z.of_nat (S (length frames))) by lia.
      reflexivity.
Qed.

(** X3. A stream in order is taken whole.  With the thread in the
    rendezvous, [ready] called and no interruption, frames numbered
    [f, f+1, ..., c] with [0 < f <= first_seqno_] followed by the end of
    the stream are all dispatched, in order and each once, with
    [must_apply = (seqno_g >= first_seqno_)] and the preload flag received;
    the thread ends with [current_seqno_ = c] and calls
    [ist_end(EPROTO)] if [c] is short of a positive [last_seqno_], and
    [ist_end(0)] otherwise. *)
Theorem stream_accepted (r : Receiver) (frames : list (gcs_action * bool))
    (f : wsrep_seqno_t) :
  ready_ r = true ->
  interrupted_ r = false ->
  frames <> [] ->
  0 < f ->
  f + Z.of_nat (length frames) - 1 <= INT64_MAX ->
  f <= first_seqno_ r ->
  (fun x => act_seqno_g (fst x)) <$> frames
  = seqZ f (Z.of_nat (length frames)) ->
  Forall (fun x => act_type (fst x) <> GCS_ACT_UNKNOWN) frames ->
  exists r' evs,
    Receiver.run r WaitingForSST (in_wakeup :: stream_inputs frames)
    = Some (r', Terminated, evs)
    /\ dispatches evs
       = (fun x => (fst x, act_seqno_g (fst x) >=? first_seqno_ r, snd x))
         <$> frames
    /\ current_seqno_ r' = f + Z.of_nat (length frames) - 1
    /\ ends evs = [end_code r (f + Z.of_nat (length frames) - 1)].
Proof.
  intros Hr Hi Hne Hf Hmax Hle Hseq Hty.
  destruct frames as [|[a pl] frames]; [congruence|]. clear Hne.
  apply Forall_cons in Hty as [Ha Hty]. simpl in Ha.
  rewrite fmap_cons in Hseq. simpl length in *.
  rewrite (seqZ_cons f) in Hseq by lia.
  injection Hseq as Hs Hseq. simpl in Hs.
  replace (Z.pred (Z.of_nat (S (length frames))))
    with (Z.of_nat (length frames)) in Hseq by lia.
  set (r0 := set_current_seqno WSREP_SEQNO_UNDEFINED r).
  destruct (step_accept r0 false None a pl Ha) as (ps1 & pr1 & evs1 & E1 & Hd & He).
  { left. split; [reflexivity|]. split; [reflexivity|]. simpl. lia. }
  destruct (stream_accepted_from frames (set_current_seqno (act_seqno_g a) r0)
              ps1 pr1)
    as (r' & evs2 & E2 & Hd2 & Hc2 & He2).
  { simpl. rewrite Hs. unfold valid_seqno. lia. }
  { simpl. lia. }
  { simpl. rewrite Hs. exact Hseq. }
  { exact Hty. }
  exists r', (evs1 ++ evs2). split.
  - cbn [Receiver.run]. simpl Receiver.step. rewrite Hr, Hi. cbn [negb andb].
    change (stream_inputs ((a, pl) :: frames))
      with (in_recv (recv_frame a pl) None None :: stream_inputs frames).
    cbn [Receiver.run]. fold r0. rewrite E1, E2. reflexivity.
  - rewrite dispatches_app, Hd, Hd2, ends_app, He, He2, Hc2. simpl.
    split; [reflexivity|]. rewrite Hs.
    split; [lia|]. unfold end_code. simpl.
    replace (f + Z.of_nat (length frames))
      with (f + Z.of_nat (S (length frames)) - 1) by lia.
    reflexivity.
Qed.

(** Scenario 3 of the specification: [prepare(5, 10)], [ready(5)], the
    donor sends 5, 6, 7 and the end of the stream. *)
Lemma stream_accepted_witness :
  exists r' evs,
    Receiver.run (Receiver.ready 5 (Fixture.prepared 5 10)) WaitingForSST
      (in_wakeup
       :: stream_inputs [(Fixture.ws 5, false); (Fixture.ws 6, false);
                         (Fixture.ws 7, true)])
    = Some (r', Terminated, evs)
    /\ dispatches evs
       = [(Fixture.ws 5, true, false); (Fixture.ws 6, true, false);
          (Fixture.ws 7, true, true)]
    /\ current_seqno_ r' = 7
    /\ ends evs = [EPROTO].
Proof.
  apply (stream_accepted (Receiver.ready 5 (Fixture.prepared 5 10))
           [(Fixture.ws 5, false); (Fixture.ws 6, false); (Fixture.ws 7, true)]
           5).
  - reflexivity.
  - vm_compute. reflexivity.
  - discriminate.
  - lia.
  - unfold INT64_MAX. simpl. lia.
  - vm_compute. discriminate.
  - reflexivity.
  - repeat constructor; discriminate.
Defined.
(** ** The receive thread: what it has dispatched, whatever ends it *)

Lemma monotone_seqZ (g : Z -> bool) (n : nat) :
  (forall x y, x <= y -> g x = true -> g y = true) ->
  forall a, nondecreasing (g <$> seqZ a (Z.of_nat n)).
Proof.
  intros Hg. induction n as [|n IH]; intros a.
  { exists 0%nat, 0%nat. reflexivity. }
  rewrite (seqZ_cons a (Z.of_nat (S n))) by lia.
  replace (Z.pred (Z.of_nat (S n))) with (Z.of_nat n) by lia.
  rewrite fmap_cons.
  destruct (g a) eqn:Ea.
  - exists 0%nat, (S (length (seqZ (Z.succ a) (Z.of_nat n)))).
    simpl. f_equal. rewrite <- (length_fmap g).
    apply all_true_replicate. apply Forall_fmap, Forall_forall.
    intros x Hx. apply elem_of_seqZ in Hx. simpl.
    apply (Hg a); [lia | exact Ea].
  - destruct (IH (Z.succ a)) as (k & m & ->).
    exists (S k), m. reflexivity.
Qed.

Lemma applies_of_seqnos (first : Z) (evs : list Event) :
  Forall (applies_from first) (dispatches evs) ->
  dispatched_applies evs = (fun s => s >=? first) <$> dispatched_seqnos evs.
Proof.
  unfold dispatched_applies, dispatched_seqnos.
  induction 1 as [|d l Hd _ IH]; [reflexivity|].
  rewrite !fmap_cons, IH. f_equal. exact Hd.
Qed.

(** The frames the loop dispatches carry consecutive sequence numbers, the
    first of them not above [first_seqno_], whatever ends the loop. *)
Lemma stream_prefix (ins : list Input) :
  forall (r : Receiver) (ps : bool) (pg : option Progress)
         (r' : Receiver) (p' : pc) (evs : list Event),
    Forall valid_input ins ->
    current_seqno_ r = WSREP_SEQNO_UNDEFINED
    \/ valid_seqno (current_seqno_ r) ->
    Receiver.run r (Streaming ps pg) ins = Some (r', p', evs) ->
    exists (a : Z) (n : nat),
      (valid_seqno (current_seqno_ r) -> a = current_seqno_ r + 1)
      /\ (current_seqno_ r = WSREP_SEQNO_UNDEFINED -> n <> 0%nat ->
          a <= first_seqno_ r)
      /\ dispatched_seqnos evs = seqZ a (Z.of_nat n).
Proof.
  induction ins as [|i ins IH]; intros r ps pg r' p' evs Hfl Hcur H.
  { simpl in H. injection H as <- <- <-.
    exists (current_seqno_ r + 1), 0%nat.
    split; [reflexivity|]. split; [congruence | reflexivity]. }
  apply run_cons in H as (r1 & p1 & evs1 & evs2 & E1 & E2 & ->).
  apply Forall_cons in Hfl as [Hi Hfl].
  destruct i as [| | |[act preload|code] u h]; try (simpl in E1; discriminate).
  - apply step_frame_general in E1
      as [[Hd Hp]|(m & Hd & Hty & Hacc & Hc1 & _ & Hp)].
    + assert (Hnil : evs2 = []).
      { destruct Hp as [-> | ->];
          apply run_stopped in E2 as (_ & _ & _ & ->); (reflexivity || exact I). }
      subst evs2. rewrite app_nil_r.
      destruct (dispatched_none _ Hd) as [-> _].
      exists (current_seqno_ r + 1), 0%nat.
      split; [reflexivity|]. split; [congruence | reflexivity].
    + pose proof (Hi Hty) as Hv.
      assert (Htail : exists n : nat,
                 dispatched_seqnos evs2
                 = seqZ (act_seqno_g act + 1) (Z.of_nat n)).
      { destruct Hp as [-> | (ps1 & pr1 & ->)].
        - apply run_stopped in E2 as (_ & _ & _ & ->); [|exact I].
          exists 0%nat. reflexivity.
        - destruct (IH r1 _ _ _ _ _ Hfl
                      ltac:(right; rewrite Hc1; exact Hv) E2)
            as (a & n & Ha & _ & Hs).
          rewrite Hc1 in Ha. rewrite (Ha Hv) in Hs.
          exists n. exact Hs. }
      destruct Htail as (n & Hs).
      exists (act_seqno_g act), (S n). split; [|split].
      * intros Hvr. destruct Hacc as [[Hu _]|[_ Hw]].
        -- unfold valid_seqno, WSREP_SEQNO_UNDEFINED in *. lia.
        -- apply (wrap64_succ_valid _ _ Hvr Hv Hw).
      * intros Hu _. destruct Hacc as [[_ Hle]|[Hne _]];
          [exact Hle | congruence].
      * rewrite dispatched_seqnos_app, (dispatched_seqnos_one _ _ _ _ Hd), Hs.
        rewrite (seqZ_cons (act_seqno_g act) (Z.of_nat (S n))) by lia.
        replace (Z.pred (Z.of_nat (S n))) with (Z.of_nat n) by lia.
        reflexivity.
  - simpl in E1.
    destruct (Receiver.run_err r code) as [rr ee] eqn:Ee. simplify_eq.
    apply run_stopped in E2 as (_ & _ & _ & ->); [|exact I].
    rewrite app_nil_r.
    pose proof (run_err_spec r code) as (ec1 & Hev & _).
    rewrite Ee in Hev. simpl in Hev. subst ee.
    exists (current_seqno_ r + 1), 0%nat.
    split; [reflexivity|]. split; [congruence | reflexivity].
Qed.

(** A thread that has not read a frame yet dispatches nothing before it
    enters the loop, which it enters with [current_seqno_] undefined. *)
Lemma run_enters_loop (ins : list Input) :
  forall (r : Receiver) (p : pc) (r' : Receiver) (p' : pc)
         (evs : list Event),
    before_streaming p ->
    Receiver.run r p ins = Some (r', p', evs) ->
    (dispatches evs = [] /\ (forall ps pg, p' <> Streaming ps pg))
    \/ (interrupted_ r = false
        /\ exists ins2 evs2,
            (exists ins1, ins = ins1 ++ ins2)
            /\ Receiver.run (set_current_seqno WSREP_SEQNO_UNDEFINED r)
                 (Streaming false None) ins2
               = Some (r', p', evs2)
            /\ dispatches evs = dispatches evs2).
Proof.
  induction ins as [|i ins IH]; intros r p r' p' evs Hp H.
  { simpl in H. injection H as <- <- <-. left.
    split; [reflexivity|]. intros ps pg. destruct p; try contradiction;
      discriminate. }
  apply run_cons in H as (r1 & p1 & evs1 & evs2 & E1 & E2 & ->).
  destruct p; try contradiction.
  - (* Accepting *)
    destruct i as [[code|]| | |]; try (simpl in E1; discriminate);
      simpl in E1; simplify_eq.
    + apply run_stopped in E2 as (_ & _ & -> & ->); [|exact I].
      left. split; [reflexivity|]. discriminate.
    + destruct (IH _ Handshaking _ _ _ I E2) as [[Hd Hs]|(Hi & ins2 & evs3 & [ins1 ->] & E3 & Hd)].
      * left. split; [exact Hd | exact Hs].
      * right. split; [exact Hi|]. exists ins2, evs3.
        split; [exists (in_accept None :: ins1); reflexivity|].
        split; [exact E3 | exact Hd].
  - (* Handshaking *)
    destruct i as [|[code|]| |]; try (simpl in E1; discriminate);
      simpl in E1.
    + destruct (run_err_spec r code) as (ec1 & Hev & _).
      destruct (Receiver.run_err r code) as [rr ee]. simpl in Hev.
      simplify_eq.
      apply run_stopped in E2 as (_ & _ & -> & ->); [|exact I].
      left. split; [reflexivity|]. discriminate.
    + simplify_eq.
      destruct (IH _ WaitingForSST _ _ _ I E2) as [[Hd Hs]|(Hi & ins2 & evs3 & [ins1 ->] & E3 & Hd)].
      * left. split; [exact Hd | exact Hs].
      * right. split; [exact Hi|]. exists ins2, evs3.
        split; [exists (in_handshake None :: ins1); reflexivity|].
        split; [exact E3 | exact Hd].
  - (* WaitingForSST *)
    destruct i; try (simpl in E1; discriminate). simpl in E1.
    destruct (negb (ready_ r) && negb (interrupted_ r)); [discriminate|].
    destruct (interrupted_ r) eqn:Hi.
    + destruct (run_err_spec r 0) as (ec1 & Hev & _).
      destruct (Receiver.run_err r 0) as [rr ee]. simpl in Hev.
      simplify_eq.
      apply run_stopped in E2 as (_ & _ & -> & ->); [|exact I].
      left. split; [reflexivity|]. discriminate.
    + simplify_eq. right. split; [reflexivity|]. exists ins, evs2.
      split; [exists [in_wakeup]; reflexivity|].
      split; [exact E2 | reflexivity].
Qed.

(** X4. Whatever ends a session (the end of the stream, a frame out of
    order, an exception, nothing yet), the frames dispatched so far carry
    the sequence numbers [a, a+1, ..., a+n-1] without gap or duplicate,
    with [a <= first_seqno_], and their [must_apply] flags are
    [seqno_g >= first_seqno_], so false, ..., false, true, ..., true: once
    a frame is applied every later one is. *)
Theorem dispatched_prefix (r : Receiver) (p : pc) (ins : list Input)
    (r' : Receiver) (p' : pc) (evs : list Event) :
  before_streaming p ->
  Forall valid_input ins ->
  Receiver.run r p ins = Some (r', p', evs) ->
  exists (a : Z) (n : nat),
    dispatched_seqnos evs = seqZ a (Z.of_nat n)
    /\ (n <> 0%nat -> a <= first_seqno_ r)
    /\ dispatched_applies evs
       = (fun s => s >=? first_seqno_ r) <$> seqZ a (Z.of_nat n)
    /\ nondecreasing (dispatched_applies evs).
Proof.
  intros Hp Hv H.
  pose proof (applies_of_seqnos _ _ (run_must_apply _ _ _ _ _ _ H)) as Happ.
  assert (Hseq : exists (a : Z) (n : nat),
             dispatched_seqnos evs = seqZ a (Z.of_nat n)
             /\ (n <> 0%nat -> a <= first_seqno_ r)).
  { destruct (run_enters_loop _ _ _ _ _ _ Hp H)
      as [[Hd _]|(_ & ins2 & evs2 & [ins1 ->] & E & Hd)].
    - exists 0, 0%nat. destruct (dispatched_none _ Hd) as [-> _].
      split; [reflexivity | congruence].
    - apply Forall_app in Hv as [_ Hv2].
      destruct (stream_prefix _ (set_current_seqno WSREP_SEQNO_UNDEFINED r)
                  _ _ _ _ _ Hv2 ltac:(left; reflexivity) E)
        as (a & n & _ & Hle & Hs).
      exists a, n. unfold dispatched_seqnos in *. rewrite Hd.
      split; [exact Hs|]. intros Hn. apply (Hle eq_refl Hn). }
  destruct Hseq as (a & n & Hs & Hle).
  exists a, n. split; [exact Hs|]. split; [exact Hle|].
  rewrite Happ, Hs. split; [reflexivity|].
  apply monotone_seqZ. intros x y Hxy. rewrite !Z.geb_leb.
  intros Hx. apply Z.leb_le in Hx. apply Z.leb_le. lia.
Qed.

(** Scenario 4 of the specification with an overlap: [prepare(5, 10)],
    [ready(5)], the donor sends 4, 5, 6 and then 8. *)
Lemma dispatched_prefix_witness :
  exists r',
    Receiver.run (Receiver.ready 5 (Fixture.prepared 5 10)) Accepting
      [in_accept None; in_handshake None; in_wakeup;
       Fixture.frame 4 false; Fixture.frame 5 false; Fixture.frame 6 false;
       Fixture.frame 8 false]
    = Some (r', Terminated,
            [acceptor_close;
             ist_trx (Fixture.ws 4) false false;
             ist_trx (Fixture.ws 5) true false;
             ist_trx (Fixture.ws 6) true false;
             seqno_unlock; socket_close; ist_end EPROTO])
    /\ exists (a : Z) (n : nat),
        [4; 5; 6] = seqZ a (Z.of_nat n)
        /\ (n <> 0%nat -> a <= 5)
        /\ [false; true; true] = (fun s => s >=? 5) <$> seqZ a (Z.of_nat n)
        /\ nondecreasing [false; true; true].
Proof.
  eexists. split; [vm_compute; reflexivity|].
  eapply (dispatched_prefix (Receiver.ready 5 (Fixture.prepared 5 10))
            Accepting
            [in_accept None; in_handshake None; in_wakeup;
             Fixture.frame 4 false; Fixture.frame 5 false;
             Fixture.frame 6 false; Fixture.frame 8 false]
            _ Terminated
            [acceptor_close;
             ist_trx (Fixture.ws 4) false false;
             ist_trx (Fixture.ws 5) true false;
             ist_trx (Fixture.ws 6) true false;
             seqno_unlock; socket_close; ist_end EPROTO]).
  - exact I.
  - repeat first [apply Forall_nil | apply Forall_cons; split];
      simpl; try exact I; intros _; unfold valid_seqno, INT64_MAX; lia.
  - vm_compute. reflexivity.
Defined.

(** ** [prepare], [ready] and [finished] *)

Section Calls.

Variable gu_URI : string -> option Receiver.URI.
Variable from_string_uint16 : string -> option Z.
Variable BASE_PORT_DEFAULT : Z.

(** What [prepare] does not write, whether it returns or throws. *)
Lemma prepare_frame (r : Receiver) (p : pc)
    (first_seqno last_seqno version source_id : Z) (env : Receiver.PrepareEnv)
    (r' : Receiver) (p' : pc) (evs : list Event) (res : result string) :
  Receiver.prepare gu_URI from_string_uint16 BASE_PORT_DEFAULT
    r p first_seqno last_seqno version source_id env
  = (r', p', evs, res) ->
  interrupted_ r' = interrupted_ r
  /\ current_seqno_ r' = current_seqno_ r
  /\ error_code_ r' = error_code_ r
  /\ ready_ r' = false
  /\ version_ r' = version
  /\ source_id_ r' = source_id.
Proof.
  unfold Receiver.prepare. intros H.
  repeat case_match; simplify_eq; simpl; repeat split; reflexivity.
Qed.

(** X5. When [prepare] returns, the listener is bound and the thread is
    started, in that order and nothing else; the address returned is the
    one stored in [recv_addr_]: scheme and host of the address
    [IST_determine_recv_addr] gave, and the port the listener was bound
    to, not the port of that address; [first_seqno_] and [last_seqno_] are
    the arguments, [running_] is set and [ready_] cleared.  [use_ssl_] is
    set for an [ssl] scheme and never cleared.  [current_seqno_],
    [error_code_] and [interrupted_] are what the last session left. *)
Theorem prepare_returns (r : Receiver) (p : pc)
    (first_seqno last_seqno version source_id : Z) (env : Receiver.PrepareEnv)
    (r' : Receiver) (p' : pc) (evs : list Event) (addr : string) :
  Receiver.prepare gu_URI from_string_uint16 BASE_PORT_DEFAULT
    r p first_seqno last_seqno version source_id env
  = (r', p', evs, ok addr) ->
  p' = Accepting
  /\ evs = [acceptor_listen; thread_create]
  /\ recv_addr_ r' = addr
  /\ (exists (addr0 : string) (uri : Receiver.URI) (port : Z),
         snd (Receiver.IST_determine_recv_addr gu_URI from_string_uint16
                BASE_PORT_DEFAULT (conf_ r)) = ok addr0
         /\ gu_URI addr0 = Some uri
         /\ Receiver.pe_listen env = inl port
         /\ addr = Receiver.get_scheme uri +:+ "://" +:+ Receiver.get_host uri
                   +:+ ":" +:+ pretty port
         /\ use_ssl_ r' = (String.eqb (Receiver.get_scheme uri) "ssl"
                           || use_ssl_ r))
  /\ first_seqno_ r' = first_seqno /\ last_seqno_ r' = last_seqno
  /\ running_ r' = true /\ ready_ r' = false
  /\ current_seqno_ r' = current_seqno_ r
  /\ error_code_ r' = error_code_ r
  /\ interrupted_ r' = interrupted_ r.
Proof.
  unfold Receiver.prepare. intros H.
  repeat case_match; simplify_eq; simpl in *;
    try match goal with
        | H1 : ?x = Some ?u, H2 : ?x = Some ?v |- _ =>
            assert (v = u) by congruence; subst v
        end;
    (split; [reflexivity|]); (split; [reflexivity|]);
    (split; [reflexivity|]);
    (split; [eexists _, _, _;
             split; [match goal with
                     | E : Receiver.IST_determine_recv_addr _ _ _ _ = _ |- _ =>
                         rewrite E; reflexivity
                     end|];
             split; [eassumption|];
             split; [first [eassumption | reflexivity]|];
             split; [reflexivity|];
             match goal with
             | E : String.eqb _ "ssl" = _ |- _ => rewrite E
             end; reflexivity|]);
    repeat split; reflexivity.
Qed.



End Calls.

Lemma prepare_returns_witness :
  Receiver.prepare Fixture.gu_URI Fixture.from_string_uint16
    Fixture.BASE_PORT_DEFAULT (Receiver.init Fixture.conf) NoThread 5 10 7 0
    (Receiver.mk_prepare_env (inl 40123) None 0)
  = (rebound, Accepting, [acceptor_listen; thread_create],
     ok "tcp://10.0.0.1:40123")
  /\ recv_addr_ rebound = "tcp://10.0.0.1:40123"
  /\ first_seqno_ rebound = 5 /\ last_seqno_ rebound = 10
  /\ running_ rebound = true /\ ready_ rebound = false.
Proof.
  assert (H : Receiver.prepare Fixture.gu_URI Fixture.from_string_uint16
                Fixture.BASE_PORT_DEFAULT (Receiver.init Fixture.conf)
                NoThread 5 10 7 0
                (Receiver.mk_prepare_env (inl 40123) None 0)
              = (rebound, Accepting, [acceptor_listen; thread_create],
                 ok "tcp://10.0.0.1:40123"))
    by (vm_compute; reflexivity).
  split; [exact H|].
  destruct (prepare_returns _ _ _ _ _ _ _ _ _ _ _ _ _ _ H)
    as (_ & _ & Ha & _ & Hf & Hl & Hr & Hy & _).
  repeat split; assumption.
Defined.


(** ** [finished] and the flag [interrupted_] *)

(** X7. When [finished] returns, [recv_addr_] is empty and the value
    returned is [current_seqno_]; a second [finished] does nothing and
    returns the same.  On a receiver with an address the resolver did not
    fail, the thread, if there was one, has ended, [running_] is false,
    [interrupted_] is set if [ready] had not been called, and the events
    are the connection to the listener, what the thread did until it
    ended, the join and the closing of the acceptor. *)
Theorem finished_closes (r : Receiver) (p : pc) (resolve_err : option Z)
    (ins : list Input) (r' : Receiver) (p' : pc) (evs : list Event)
    (s : wsrep_seqno_t) :
  Receiver.finished r p resolve_err ins = Some (r', p', evs, ok s) ->
  recv_addr_ r' = ""
  /\ s = current_seqno_ r'
  /\ (recv_addr_ r <> "" ->
      resolve_err = None
      /\ running_ r' = false
      /\ ((p = NoThread /\ p' = NoThread) \/ (p <> NoThread /\ p' = Terminated))
      /\ (ready_ r = false -> interrupted_ r' = true)
      /\ exists evs0,
          evs = loopback_connect :: evs0 ++ [thread_join; acceptor_close])
  /\ forall resolve_err' ins',
       Receiver.finished r' p' resolve_err' ins' = Some (r', p', [], ok s).
Proof.
  unfold Receiver.finished. intros H.
  destruct (String.eqb (recv_addr_ r) "") eqn:Ea.
  { apply String.eqb_eq in Ea. simplify_eq.
    split; [exact Ea|]. split; [reflexivity|].
    split; [intros Hne; contradiction|].
    intros re' ins'. rewrite Ea. reflexivity. }
  destruct resolve_err as [code|]; simpl in H; [discriminate|].
  destruct (Receiver.join _ p ins) as [[[r2 p2] evs2]|] eqn:Ej;
    [|discriminate].
  simplify_eq. simpl.
  split; [reflexivity|]. split; [reflexivity|].
  split; [|intros re' ins'; reflexivity].
  intros _. split; [reflexivity|]. split; [reflexivity|].
  unfold Receiver.join in Ej.
  destruct p; simplify_eq;
    try (destruct (Receiver.run _ _ ins) as [[[r3 p3] evs3]|] eqn:Er;
         [|discriminate];
         destruct p3; try discriminate; simplify_eq;
         (split; [right; split; [discriminate | reflexivity]|]);
         (split; [|exists evs2; reflexivity]);
         intros Hr; rewrite Hr in Er; simpl in Er;
         apply run_frame_fields in Er as (_ & _ & Hi & _);
         simpl; rewrite Hi; reflexivity).
  split; [left; split; reflexivity|].
  split; [|exists []; reflexivity].
  intros Hr. rewrite Hr. reflexivity.
Qed.

Lemma finished_closes_witness :
  Receiver.finished (Fixture.prepared 5 10) WaitingForSST None [in_wakeup]
  = Some (stood_down, Terminated,
          [loopback_connect; seqno_unlock; socket_close; ist_end EPROTO;
           thread_join; acceptor_close],
          ok WSREP_SEQNO_UNDEFINED)
  /\ recv_addr_ stood_down = ""
  /\ running_ stood_down = false
  /\ interrupted_ stood_down = true
  /\ Receiver.finished stood_down Terminated None []
     = Some (stood_down, Terminated, [], ok WSREP_SEQNO_UNDEFINED).
Proof.
  assert (H : Receiver.finished (Fixture.prepared 5 10) WaitingForSST None
                [in_wakeup]
              = Some (stood_down, Terminated,
                      [loopback_connect; seqno_unlock; socket_close;
                       ist_end EPROTO; thread_join; acceptor_close],
                      ok WSREP_SEQNO_UNDEFINED))
    by (vm_compute; reflexivity).
  split; [exact H|].
  destruct (finished_closes _ _ _ _ _ _ _ _ H) as (Ha & _ & Hp & Hf).
  destruct Hp as (_ & Hr & _ & Hi & _); [vm_compute; discriminate|].
  split; [exact Ha|]. split; [exact Hr|].
  split; [apply Hi; vm_compute; reflexivity|]. exact (Hf None []).
Defined.

(** [finished] never clears [interrupted_]. *)
Lemma finished_interrupted (r : Receiver) (p : pc) (resolve_err : option Z)
    (ins : list Input) (r' : Receiver) (p' : pc) (evs : list Event)
    (res : result wsrep_seqno_t) :
  Receiver.finished r p resolve_err ins = Some (r', p', evs, res) ->
  interrupted_ r = true -> interrupted_ r' = true.
Proof.
  unfold Receiver.finished. intros H Hi.
  destruct (String.eqb (recv_addr_ r) ""); [simplify_eq; exact Hi|].
  destruct resolve_err as [code|]; simpl in H; [simplify_eq; exact Hi|].
  destruct (Receiver.join _ p ins) as [[[r2 p2] evs2]|] eqn:Ej;
    [|discriminate].
  simplify_eq. simpl.
  assert (Hi1 : interrupted_
                  (if negb (ready_ r) then set_interrupted true r else r)
                = true).
  { destruct (negb (ready_ r)); [reflexivity | exact Hi]. }
  unfold Receiver.join in Ej.
  destruct p; simplify_eq; try exact Hi1;
    destruct (Receiver.run _ _ ins) as [[[r3 p3] evs3]|] eqn:Er;
    try discriminate;
    destruct p3; try discriminate; simplify_eq;
    apply run_frame_fields in Er as (_ & _ & Hi2 & _);
    rewrite Hi2; exact Hi1.
Qed.

(** X8. Nothing clears [interrupted_]: once it is set (by [finished]
    before [ready]), it stays set through every later call of [prepare],
    [ready] and [finished] and every step of a receive thread.  So every
    later session of that receiver leaves the rendezvous for the end, and
    dispatches no frame, whether [ready] is called or not. *)
Theorem interrupted_forever (gu_URI : string -> option Receiver.URI)
    (from_string_uint16 : string -> option Z) (BASE_PORT_DEFAULT : Z)
    (r : Receiver) (p : pc) (r' : Receiver) (p' : pc) :
  later gu_URI from_string_uint16 BASE_PORT_DEFAULT r p r' p' ->
  interrupted_ r = true ->
  interrupted_ r' = true
  /\ forall ins r'' p'' evs,
       before_streaming p' ->
       Receiver.run r' p' ins = Some (r'', p'', evs) ->
       dispatches evs = [] /\ forall ps pg, p'' <> Streaming ps pg.
Proof.
  intros Hl Hi.
  assert (Hi' : interrupted_ r' = true).
  { induction Hl as [r p
                    | r p f l v sid env r1 p1 evs res r' p' Hprep _ IH
                    | r p f r' p' _ IH
                    | r p i r1 p1 evs r' p' Hstep _ IH
                    | r p rerr ins r1 p1 evs res r' p' Hfin _ IH].
    - exact Hi.
    - apply IH.
      apply prepare_frame in Hprep as (Hp & _). rewrite Hp. exact Hi.
    - apply IH. exact Hi.
    - apply IH.
      apply step_frame_fields in Hstep as (_ & _ & Hs & _).
      rewrite Hs. exact Hi.
    - apply IH. apply (finished_interrupted _ _ _ _ _ _ _ _ Hfin Hi). }
  split; [exact Hi'|].
  intros ins r'' p'' evs Hp H.
  destruct (run_enters_loop _ _ _ _ _ _ Hp H) as [Hd|[Hf _]];
    [exact Hd | congruence].
Qed.

Lemma interrupted_forever_witness :
  interrupted_ stood_down = true
  /\ Receiver.prepare Fixture.gu_URI Fixture.from_string_uint16
       Fixture.BASE_PORT_DEFAULT stood_down Terminated 5 10 7 0
       Fixture.env_ok
     = (reprepared, Accepting, [acceptor_listen; thread_create],
        ok "tcp://10.0.0.1:4568")
  /\ Receiver.run (Receiver.ready 5 reprepared) Accepting
       [in_accept None; in_handshake None; in_wakeup]
     = Some (set_error_code EPROTO
               (set_running false (Receiver.ready 5 reprepared)),
             Terminated,
             [acceptor_close; seqno_unlock; socket_close; ist_end EPROTO])
  /\ interrupted_ (Receiver.ready 5 reprepared) = true
  /\ dispatches [acceptor_close; seqno_unlock; socket_close; ist_end EPROTO]
     = [].
Proof.
  assert (Hi : interrupted_ stood_down = true) by (vm_compute; reflexivity).
  assert (Hp : Receiver.prepare Fixture.gu_URI Fixture.from_string_uint16
                 Fixture.BASE_PORT_DEFAULT stood_down Terminated 5 10 7 0
                 Fixture.env_ok
               = (reprepared, Accepting, [acceptor_listen; thread_create],
                  ok "tcp://10.0.0.1:4568")) by (vm_compute; reflexivity).
  assert (Hr : Receiver.run (Receiver.ready 5 reprepared) Accepting
                 [in_accept None; in_handshake None; in_wakeup]
               = Some (set_error_code EPROTO
                         (set_running false (Receiver.ready 5 reprepared)),
                       Terminated,
                       [acceptor_close; seqno_unlock; socket_close;
                        ist_end EPROTO])) by (vm_compute; reflexivity).
  split; [exact Hi|]. split; [exact Hp|]. split; [exact Hr|].
  destruct (interrupted_forever Fixture.gu_URI Fixture.from_string_uint16
              Fixture.BASE_PORT_DEFAULT stood_down Terminated
              (Receiver.ready 5 reprepared) Accepting) as [Hi' Hd].
  - eapply later_prepare; [exact Hp|].
    apply later_ready with (first := 5). apply later_refl.
  - exact Hi.
  - split; [exact Hi'|]. exact (proj1 (Hd _ _ _ _ I Hr)).
Defined.

(** ** The sender over a cache that holds what is asked for *)

Lemma consecutive_take {A : Type} (g : A -> Z) (l : list A) (f : Z)
    (n : nat) :
  g <$> l = seqZ f (Z.of_nat (length l)) ->
  g <$> take n l = seqZ f (Z.of_nat (length (take n l))).
Proof.
  intros H.
  assert (Hl : length l = (length (take n l) + length (drop n l))%nat)
    by (rewrite <- length_app, take_drop; reflexivity).
  rewrite Hl in H. rewrite <- (take_drop n l) in H at 1.
  rewrite fmap_app, Nat2Z.inj_add, seqZ_app in H by lia.
  apply app_inj_1 in H as [H _]; [exact H|].
  rewrite length_fmap, length_seqZ. lia.
Qed.

Lemma batch_size_small (first last : Z) :
  first <= last -> last - first < INT64_MAX ->
  Sender.batch_size first last = Z.min (last - first + 1) 1024.
Proof.
  intros H1 H2. unfold Sender.batch_size.
  rewrite (wrap64_small (last - first))
    by (unfold INT64_MIN, INT64_MAX in *; lia).
  rewrite (wrap64_small (last - first + 1))
    by (unfold INT64_MIN, INT64_MAX in *; lia).
  unfold to_size_t. rewrite Z.mod_small; [reflexivity|].
  unfold INT64_MAX in *. lia.
Qed.

(** One batch of consecutive buffers that does not pass [last]: it is
    written whole, and followed by the EOF frame when it ends at
    [last]. *)
Lemma send_batch_serves (env : SendEnv) (last preload_start : Z)
    (bufs : list Buffer) :
  (forall k, se_write_err env k = None) ->
  forall (f : Z) (k : nat),
    buf_seqno_g <$> bufs = seqZ f (Z.of_nat (length bufs)) ->
    f + Z.of_nat (length bufs) - 1 <= last ->
    Sender.send_batch env bufs last preload_start k
    = if (f + Z.of_nat (length bufs) - 1 =? last) && negb (length bufs =? 0)%nat
      then (frames_of preload_start bufs ++ [w_ctrl Ctrl.C_EOF],
            Sender.batch_return (ok tt))
      else (frames_of preload_start bufs,
            Sender.batch_done (k + length bufs)).
Proof.
  intros Hw. induction bufs as [|b bufs IH]; intros f k Hs Hle.
  { simpl. rewrite andb_false_r, Nat.add_0_r. reflexivity. }
  simpl length in *. rewrite fmap_cons, (seqZ_cons f) in Hs by lia.
  injection Hs as Hb Hs.
  replace (Z.pred (Z.of_nat (S (length bufs))))
    with (Z.of_nat (length bufs)) in Hs by lia.
  cbn [Sender.send_batch]. rewrite Hw.
  change ((preload_start >? 0) && (buf_seqno_g b >=? preload_start))
    with (preload_of preload_start (buf_seqno_g b)).
  cbn [Nat.eqb negb]. rewrite andb_true_r.
  destruct (Z.eqb_spec (buf_seqno_g b) last) as [El|Nl].
  - assert (length bufs = 0%nat) by lia.
    destruct bufs; [|discriminate].
    unfold Sender.send_eof. rewrite Hw. simpl.
    replace (f + Z.of_nat 1 - 1 =? last) with true
      by (symmetry; apply Z.eqb_eq; lia).
    reflexivity.
  - rewrite (IH (Z.succ f) (S k) Hs) by lia.
    replace (Z.succ f + Z.of_nat (length bufs) - 1)
      with (f + Z.of_nat (S (length bufs)) - 1) by lia.
    destruct (Z.eqb_spec (f + Z.of_nat (S (length bufs)) - 1) last) as [E|N].
    + destruct bufs as [|b' bufs]; [simpl in E; lia|]. reflexivity.
    + rewrite !andb_false_l. f_equal. f_equal. lia.
Qed.

(** The loop of [send] over caches that serve: it writes the buffers
    [first .. last] and the EOF frame. *)
Lemma send_loop_serves (env : SendEnv) (last preload_start : Z)
    (caches : list GCache) :
  (forall k, se_write_err env k = None) ->
  last <= INT64_MAX ->
  Forall serves caches ->
  forall (first : Z) (k : nat),
    0 < first <= last ->
    last - first < Z.of_nat (length caches) ->
    exists bufs,
      Sender.send_loop env caches (Sender.batch_size first last)
        first last preload_start k
      = Some (frames_of preload_start bufs ++ [w_ctrl Ctrl.C_EOF], ok tt)
      /\ buf_seqno_g <$> bufs = seqZ first (last - first + 1)
      /\ Forall (fun b => buf_type b <> GCS_ACT_UNKNOWN) bufs.
Proof.
  intros Hw Hmax. induction caches as [|gc caches IH];
    intros Hsv first k Hf Hlen; [simpl in Hlen; lia|].
  apply Forall_cons in Hsv as [Hgc Hsv].
  rewrite batch_size_small by (unfold INT64_MAX in *; lia).
  set (size := Z.min (last - first + 1) 1024).
  assert (Hsize : 0 < size <= last - first + 1) by (unfold size; lia).
  destruct (Hgc size first (proj1 Hsize)) as (Hne & Hseq & Hty).
  cbn [Sender.send_loop].
  set (bufs := take (Z.to_nat size) (gc size first)).
  assert (Hn : (0 < length bufs)%nat).
  { unfold bufs. rewrite length_take.
    destruct (gc size first); [congruence|]. simpl. lia. }
  assert (Hnle : Z.of_nat (length bufs) <= size).
  { unfold bufs. rewrite length_take. lia. }
  assert (Hbs : buf_seqno_g <$> bufs
                = seqZ first (Z.of_nat (length bufs))).
  { apply consecutive_take. exact Hseq. }
  assert (Hbt : Forall (fun b => buf_type b <> GCS_ACT_UNKNOWN) bufs).
  { apply Forall_take. exact Hty. }
  replace (Z.of_nat (length bufs) >? 0) with true
    by (symmetry; rewrite Z.gtb_ltb; apply Z.ltb_lt; lia).
  rewrite (send_batch_serves env last preload_start bufs Hw first k Hbs)
    by lia.
  replace (negb (length bufs =? 0)%nat) with true
    by (symmetry; apply negb_true_iff, Nat.eqb_neq; lia).
  rewrite andb_true_r.
  destruct (Z.eqb_spec (first + Z.of_nat (length bufs) - 1) last) as [E|N].
  - exists bufs. split; [reflexivity|]. split; [|exact Hbt].
    rewrite Hbs. f_equal. lia.
  - rewrite (wrap64_small (first + Z.of_nat (length bufs)))
      by (unfold INT64_MIN, INT64_MAX in *; lia).
    destruct (IH Hsv (first + Z.of_nat (length bufs)) (k + length bufs)%nat)
      as (bufs2 & -> & Hs2 & Ht2).
    { lia. }
    { simpl length in Hlen. lia. }
    exists (bufs ++ bufs2). split.
    + unfold frames_of. rewrite fmap_app, <- app_assoc. reflexivity.
    + split; [|apply Forall_app; split; assumption].
      rewrite fmap_app, Hbs, Hs2.
      replace (last - first + 1)
        with (Z.of_nat (length bufs)
              + (last - (first + Z.of_nat (length bufs)) + 1)) by lia.
      apply eq_sym, seqZ_app; lia.
Qed.

(** X9. From a cache that holds what is asked for, [send(first, last, _)]
    with [0 < first <= last] writes one ordered frame for each sequence
    number [first, first + 1, ..., last], in order, each with the flag
    [preload_start > 0 && seqno_g >= preload_start], then the EOF frame,
    and returns; the cache is asked at most [last - first + 1] times. *)
Theorem send_complete (VER40 : Z) (env : SendEnv) (s : Sender.t)
    (first last preload_start ctrl : Z) :
  se_handshake env = ok ctrl ->
  0 <= ctrl ->
  (forall k, se_write_err env k = None) ->
  Forall serves (se_caches env) ->
  0 < first <= last ->
  last <= INT64_MAX ->
  last - first < Z.of_nat (length (se_caches env)) ->
  exists bufs,
    Sender.send VER40 env s first last preload_start
    = Some (frames_of preload_start bufs ++ [w_ctrl Ctrl.C_EOF], ok tt)
    /\ buf_seqno_g <$> bufs = seqZ first (last - first + 1)
    /\ Forall (fun b => buf_type b <> GCS_ACT_UNKNOWN) bufs.
Proof.
  intros Hhs Hctrl Hw Hsv Hf Hmax Hlen.
  destruct (send_loop_serves env last preload_start (se_caches env)
              Hw Hmax Hsv first 0%nat Hf Hlen) as (bufs & E & Hs & Ht).
  exists bufs. split; [|split; assumption].
  unfold Sender.send. rewrite Hhs.
  replace (first >? last) with false
    by (symmetry; rewrite Z.gtb_ltb; apply Z.ltb_ge; lia).
  replace (ctrl <? 0) with false by (symmetry; apply Z.ltb_ge; lia).
  replace (first =? 0) with false by (symmetry; apply Z.eqb_neq; lia).
  cbn [andb orb]. rewrite E. reflexivity.
Qed.

Lemma ideal_cache_serves : serves ideal_cache.
Proof.
  intros size first Hsize. unfold ideal_cache.
  split; [|split].
  - rewrite (seqZ_cons first size) by lia. discriminate.
  - rewrite <- list_fmap_compose, length_fmap, length_seqZ.
    rewrite Z2Nat.id by lia.
    rewrite (list_fmap_ext _ id (seqZ first size)) by reflexivity.
    apply list_fmap_id.
  - apply Forall_fmap, Forall_forall. intros x _. simpl. discriminate.
Qed.

Lemma send_complete_witness :
  exists bufs,
    Sender.send 10 ideal_env (Sender.mk 10 false) 3 6 5
    = Some (frames_of 5 bufs ++ [w_ctrl Ctrl.C_EOF], ok tt)
    /\ buf_seqno_g <$> bufs = seqZ 3 (6 - 3 + 1)
    /\ Forall (fun b => buf_type b <> GCS_ACT_UNKNOWN) bufs.
Proof.
  apply (send_complete 10 ideal_env (Sender.mk 10 false) 3 6 5 Ctrl.C_OK).
  - reflexivity.
  - vm_compute. discriminate.
  - reflexivity.
  - change (Forall serves
              [ideal_cache; ideal_cache; ideal_cache; ideal_cache]).
    repeat (constructor; [exact ideal_cache_serves|]). constructor.
  - lia.
  - unfold INT64_MAX. lia.
  - simpl. lia.
Defined.

(** What that call writes. *)
Example send_3_6 :
  Sender.send 10 ideal_env (Sender.mk 10 false) 3 6 5
  = Some ([w_ordered (Fixture.buffer 3) false;
           w_ordered (Fixture.buffer 4) false;
           w_ordered (Fixture.buffer 5) true;
           w_ordered (Fixture.buffer 6) true;
           w_ctrl Ctrl.C_EOF], ok tt).
Proof. vm_compute. reflexivity. Qed.

(** ** A whole session *)

Lemma received_stream (preload_start : Z) (bufs : list Buffer) :
  received (frames_of preload_start bufs ++ [w_ctrl Ctrl.C_EOF])
  = stream_inputs
      ((fun b => (action_of b, preload_of preload_start (buf_seqno_g b)))
         <$> bufs).
Proof.
  unfold received, stream_inputs, frames_of.
  rewrite fmap_app, <- !list_fmap_compose. reflexivity.
Qed.

(** X10. Sender and receiver together.  The donor calls
    [send(first, last, preload_start)] with [0 < first <= last] over a
    cache that holds what is asked for; the joiner's thread stands in the
    rendezvous, [ready] has been called with a [first_seqno_] of at least
    [first], nothing is interrupted and every frame arrives.  Then [send]
    returns, the thread ends, the handler has been given exactly the
    sequence numbers [first .. last] in order, each once, applied from
    [first_seqno_] on and flagged as preload from [preload_start] on;
    [current_seqno_] is [last], and [ist_end] gets 0 unless the receiver
    had asked for more than [last]. *)
Theorem session_complete (VER40 : Z) (env : SendEnv) (s : Sender.t)
    (first last preload_start ctrl : Z) (r : Receiver) :
  se_handshake env = ok ctrl ->
  0 <= ctrl ->
  (forall k, se_write_err env k = None) ->
  Forall serves (se_caches env) ->
  0 < first <= last ->
  last <= INT64_MAX ->
  last - first < Z.of_nat (length (se_caches env)) ->
  ready_ r = true ->
  interrupted_ r = false ->
  first <= first_seqno_ r ->
  exists ws r' evs,
    Sender.send VER40 env s first last preload_start = Some (ws, ok tt)
    /\ Receiver.run r WaitingForSST (in_wakeup :: received ws)
       = Some (r', Terminated, evs)
    /\ dispatched_seqnos evs = seqZ first (last - first + 1)
    /\ dispatched_applies evs
       = (fun x => x >=? first_seqno_ r) <$> seqZ first (last - first + 1)
    /\ dispatched_preloads evs
       = preload_of preload_start <$> seqZ first (last - first + 1)
    /\ current_seqno_ r' = last
    /\ ends evs = [end_code r last].
Proof.
  intros Hhs Hctrl Hw Hsv Hf Hmax Hlen Hr Hi Hfs.
  destruct (send_complete VER40 env s first last preload_start ctrl
              Hhs Hctrl Hw Hsv Hf Hmax Hlen) as (bufs & Es & Hs & Ht).
  assert (Hn : Z.of_nat (length bufs) = last - first + 1).
  { rewrite <- (length_fmap buf_seqno_g), Hs, length_seqZ. lia. }
  set (frames := (fun b => (action_of b,
                            preload_of preload_start (buf_seqno_g b)))
                   <$> bufs).
  assert (Hfl : length frames = length bufs) by apply length_fmap.
  assert (Hfseq : (fun x => act_seqno_g (fst x)) <$> frames
                  = seqZ first (last - first + 1)).
  { unfold frames. rewrite <- list_fmap_compose. exact Hs. }
  destruct (stream_accepted r frames first) as (r' & evs & Er & Hd & Hc & He).
  - exact Hr.
  - exact Hi.
  - intros E. rewrite E in Hfl. simpl in Hfl. lia.
  - lia.
  - rewrite Hfl. lia.
  - exact Hfs.
  - rewrite Hfl, Hn. exact Hfseq.
  - unfold frames. apply Forall_fmap. exact Ht.
  - exists (frames_of preload_start bufs ++ [w_ctrl Ctrl.C_EOF]), r', evs.
    split; [exact Es|].
    rewrite received_stream. fold frames. split; [exact Er|].
    rewrite Hfl in Hc, He.
    replace (first + Z.of_nat (length bufs) - 1) with last in Hc, He by lia.
    unfold dispatched_seqnos, dispatched_applies, dispatched_preloads.
    rewrite Hd, <- !list_fmap_compose.
    split; [exact Hfseq|].
    split; [rewrite <- Hfseq, <- list_fmap_compose; reflexivity|].
    split; [|split; assumption].
    rewrite <- Hs. unfold frames. rewrite <- !list_fmap_compose.
    reflexivity.
Qed.

(** The donor sends 3..6 with the preload from 5 on to a joiner prepared
    for 5..6. *)
Lemma session_complete_witness :
  exists ws r' evs,
    Sender.send 10 ideal_env (Sender.mk 10 false) 3 6 5 = Some (ws, ok tt)
    /\ Receiver.run (Receiver.ready 5 (Fixture.prepared 5 6)) WaitingForSST
         (in_wakeup :: received ws)
       = Some (r', Terminated, evs)
    /\ dispatched_seqnos evs = seqZ 3 (6 - 3 + 1)
    /\ dispatched_applies evs
       = (fun x => x >=? first_seqno_ (Receiver.ready 5 (Fixture.prepared 5 6)))
         <$> seqZ 3 (6 - 3 + 1)
    /\ dispatched_preloads evs = preload_of 5 <$> seqZ 3 (6 - 3 + 1)
    /\ current_seqno_ r' = 6
    /\ ends evs = [end_code (Receiver.ready 5 (Fixture.prepared 5 6)) 6].
Proof.
  apply (session_complete 10 ideal_env (Sender.mk 10 false) 3 6 5 Ctrl.C_OK
           (Receiver.ready 5 (Fixture.prepared 5 6))).
  - reflexivity.
  - vm_compute. discriminate.
  - reflexivity.
  - change (Forall serves
              [ideal_cache; ideal_cache; ideal_cache; ideal_cache]).
    repeat (constructor; [exact ideal_cache_serves|]). constructor.
  - lia.
  - unfold INT64_MAX. lia.
  - simpl. lia.
  - reflexivity.
  - vm_compute. reflexivity.
  - vm_compute. discriminate.
Defined.

(** What that session gives the handler. *)
Example session_3_6 :
  Receiver.run (Receiver.ready 5 (Fixture.prepared 5 6)) WaitingForSST
    (in_wakeup
     :: received [w_ordered (Fixture.buffer 3) false;
                  w_ordered (Fixture.buffer 4) false;
                  w_ordered (Fixture.buffer 5) true;
                  w_ordered (Fixture.buffer 6) true;
                  w_ctrl Ctrl.C_EOF])
  = Some (set_error_code 0
            (set_running false
               (set_current_seqno 6
                  (Receiver.ready 5 (Fixture.prepared 5 6)))),
          Terminated,
          [ist_trx (Fixture.ws 3) false false;
           ist_trx (Fixture.ws 4) false false;
           ist_trx (Fixture.ws 5) true true;
           ist_trx (Fixture.ws 6) true true;
           seqno_unlock; socket_close; ist_end 0]).
Proof. vm_compute. reflexivity. Qed.

(** ** What [send] throws, and the thread of an [AsyncSender] *)

Lemma send_eof_throws (env : SendEnv) (k : nat) (ws : list Wire) (e : exn) :
  Sender.send_eof env k = (ws, throw e) ->
  exists c, e = asio_system_error c.
Proof.
  unfold Sender.send_eof. destruct (se_write_err env k) as [c|]; intros H;
    simplify_eq. exists c. reflexivity.
Qed.

Lemma send_batch_throws (env : SendEnv) (last preload_start : Z)
    (bufs : list Buffer) :
  forall (k : nat) (ws : list Wire) (e : exn),
    Sender.send_batch env bufs last preload_start k
    = (ws, Sender.batch_return (throw e)) ->
    exists c, e = asio_system_error c.
Proof.
  induction bufs as [|b bufs IH]; intros k ws e H; simpl in H;
    [discriminate|].
  destruct (se_write_err env k) as [c|]; [simplify_eq; exists c; reflexivity|].
  destruct (buf_seqno_g b =? last).
  - destruct (Sender.send_eof env (S k)) as [ws1 res1] eqn:E. simplify_eq.
    apply (send_eof_throws _ _ _ _ E).
  - destruct (Sender.send_batch env bufs last preload_start (S k))
      as [ws1 e1] eqn:E. simplify_eq. apply (IH _ _ _ E).
Qed.

Lemma send_loop_throws (env : SendEnv) (last preload_start : Z)
    (caches : list GCache) :
  forall (size first : Z) (k : nat) (ws : list Wire) (e : exn),
    Sender.send_loop env caches size first last preload_start k
    = Some (ws, throw e) ->
    exists c, e = asio_system_error c.
Proof.
  induction caches as [|gc caches IH]; intros size first k ws e H;
    simpl in H; [discriminate|].
  destruct (Z.of_nat (length (take (Z.to_nat size) (gc size first))) >? 0);
    [|discriminate].
  destruct (Sender.send_batch env _ last preload_start k)
    as [ws1 [k'|res]] eqn:Eb.
  - destruct (Sender.send_loop env caches _ _ last preload_start k')
      as [[ws2 res2]|] eqn:El; [|discriminate].
    simplify_eq. apply (IH _ _ _ _ _ El).
  - simplify_eq. apply (send_batch_throws _ _ _ _ _ _ _ Eb).
Qed.

(** X11. No [asio::system_error] leaves [send]: what the socket throws
    comes out as a [gu::Exception] with the same code.  What [send] throws
    is a [gu::Exception], or else it is what the handshake threw. *)
Theorem send_throws (VER40 : Z) (env : SendEnv) (s : Sender.t)
    (first last preload_start : Z) (ws : list Wire) (e : exn) :
  Sender.send VER40 env s first last preload_start = Some (ws, throw e) ->
  (forall c, e <> asio_system_error c)
  /\ ((exists c, e = gu_Exception c) \/ se_handshake env = throw e).
Proof.
  unfold Sender.send. intros H.
  destruct ((first >? last) && (Sender.version_ s <? VER40)).
  { simplify_eq. split; [discriminate | left; eexists; reflexivity]. }
  destruct (se_handshake env) as [ctrl|e0] eqn:Eh.
  - destruct (ctrl <? 0).
    { simplify_eq. split; [discriminate | left; eexists; reflexivity]. }
    destruct ((first >? last) || ((first =? 0) && (last =? 0))).
    + destruct (Sender.send_eof env 0) as [ws1 [[]|e1]] eqn:Ee;
        simpl in H; [discriminate|].
      destruct (send_eof_throws _ _ _ _ Ee) as [c ->]. simpl in H.
      simplify_eq. split; [discriminate | left; eexists; reflexivity].
    + destruct (Sender.send_loop env _ _ first last preload_start 0)
        as [[ws1 [[]|e1]]|] eqn:El; simpl in H; try discriminate.
      destruct (send_loop_throws _ _ _ _ _ _ _ _ _ El) as [c ->].
      simpl in H. simplify_eq.
      split; [discriminate | left; eexists; reflexivity].
  - destruct e0 as [c|c| |]; simpl in H; simplify_eq;
      (split; [discriminate|]);
      first [left; eexists; reflexivity | right; reflexivity].
Qed.

Lemma send_throws_witness :
  Sender.send 10 reset_env (Sender.mk 10 false) 3 6 0
  = Some ([], throw (gu_Exception 104))
  /\ (forall c, gu_Exception 104 <> asio_system_error c)
  /\ ((exists c, gu_Exception 104 = gu_Exception c)
      \/ se_handshake reset_env = throw (gu_Exception 104)).
Proof.
  assert (H : Sender.send 10 reset_env (Sender.mk 10 false) 3 6 0
              = Some ([], throw (gu_Exception 104))) by reflexivity.
  split; [exact H|].
  exact (send_throws 10 reset_env (Sender.mk 10 false) 3 6 0 [] _ H).
Defined.

(** X12. The thread of an [AsyncSender] whose [send] comes back, the
    handshake throwing nothing but [asio::system_error] or
    [gu::Exception], always returns: it has written what [send] wrote,
    the sender is no longer in the map and nothing else has left the map,
    and the sender has deleted itself exactly if it still was in the map.
    So a sender that [AsyncSenderMap::run] put in takes itself out, and one
    that [cancel] took out before is not deleted a second time. *)
Theorem async_sender_leaves (VER40 : Z) (env : SendEnv) (a : AsyncSender)
    (m : AsyncSenderMap.t) (ws : list Wire) (res : result unit) :
  Sender.send VER40 env (as_sender a) (as_first a) (as_last a)
    (as_preload_start a) = Some (ws, res) ->
  (forall e, se_handshake env = throw e ->
             exists c, e = gu_Exception c \/ e = asio_system_error c) ->
  exists sv,
    run_async_sender VER40 env a m = Some sv
    /\ sv_wire sv = ws
    /\ AsyncSenderMap.senders_ (sv_map sv)
       = AsyncSenderMap.senders_ m ∖ {[as_ptr a]}
    /\ (sv_deleted sv = true <-> as_ptr a ∈ AsyncSenderMap.senders_ m)
    /\ (forall m1,
           AsyncSenderMap.run m a 0 = ok m1 ->
           exists sv1,
             run_async_sender VER40 env a m1 = Some sv1
             /\ sv_deleted sv1 = true
             /\ AsyncSenderMap.senders_ (sv_map sv1)
                = AsyncSenderMap.senders_ m ∖ {[as_ptr a]})
    /\ (exists sv0,
           run_async_sender VER40 env a (fst (AsyncSenderMap.cancel m))
           = Some sv0
           /\ sv_deleted sv0 = false
           /\ AsyncSenderMap.senders_ (sv_map sv0) = ∅).
Proof.
  intros Hs Hh.
  assert (Hjs : exists js,
             match res with
             | ok _ => Some (as_last a)
             | throw (gu_Exception errno) => Some (- errno)
             | throw _ => None
             end = Some js).
  { destruct res as [[]|e]; [eexists; reflexivity|].
    destruct (send_throws _ _ _ _ _ _ _ _ Hs) as [Hna [[c ->]|He]];
      [eexists; reflexivity|].
    destruct (Hh e He) as [c [-> | ->]]; [eexists; reflexivity|].
    exfalso. apply (Hna c). reflexivity. }
  destruct Hjs as [js Hjs].
  assert (Hrun : forall m0,
             exists sv,
               run_async_sender VER40 env a m0 = Some sv
               /\ sv_wire sv = ws
               /\ AsyncSenderMap.senders_ (sv_map sv)
                  = AsyncSenderMap.senders_ m0 ∖ {[as_ptr a]}
               /\ (sv_deleted sv = true
                   <-> as_ptr a ∈ AsyncSenderMap.senders_ m0)).
  { intros m0. unfold run_async_sender. rewrite Hs, Hjs.
    unfold AsyncSenderMap.remove.
    destruct (decide (as_ptr a ∈ AsyncSenderMap.senders_ m0)) as [Hin|Hnin].
    - eexists. split; [reflexivity|]. split; [reflexivity|].
      split; [reflexivity|]. split; [intros _; exact Hin | reflexivity].
    - eexists. split; [reflexivity|]. split; [reflexivity|].
      split; [simpl; symmetry; apply difference_disjoint_L,
                disjoint_singleton_r; exact Hnin|].
      split; [discriminate | intros Hin; contradiction]. }
  destruct (Hrun m) as (sv & E & Hw & Hm & Hd).
  exists sv. split; [exact E|]. split; [exact Hw|]. split; [exact Hm|].
  split; [exact Hd|]. split.
  - intros m1 Hm1. unfold AsyncSenderMap.run in Hm1. simpl in Hm1.
    simplify_eq.
    destruct (Hrun (AsyncSenderMap.mk
                      ({[as_ptr a]} ∪ AsyncSenderMap.senders_ m)))
      as (sv1 & E1 & _ & Hm1 & Hd1).
    exists sv1. split; [exact E1|]. split.
    + apply Hd1. simpl. apply elem_of_union_l, elem_of_singleton.
      reflexivity.
    + rewrite Hm1. simpl.
      rewrite difference_union_distr_l_L, difference_diag_L.
      apply union_empty_l_L.
  - destruct (Hrun (fst (AsyncSenderMap.cancel m)))
      as (sv0 & E0 & _ & Hm0 & Hd0).
    exists sv0. split; [exact E0|]. split.
    + destruct (sv_deleted sv0); [|reflexivity].
      exfalso. simpl in Hd0. destruct Hd0 as [Hd0 _].
      specialize (Hd0 eq_refl). apply elem_of_empty in Hd0. exact Hd0.
    + rewrite Hm0. simpl. apply empty_difference_L.
Qed.

Lemma async_sender_leaves_witness :
  exists sv,
    run_async_sender 10 ideal_env
      (mk_async_sender 1 (Sender.mk 10 false) "10.0.0.2:4568" 3 6 5)
      two_senders
    = Some sv
    /\ sv_wire sv
       = [w_ordered (Fixture.buffer 3) false;
          w_ordered (Fixture.buffer 4) false;
          w_ordered (Fixture.buffer 5) true;
          w_ordered (Fixture.buffer 6) true;
          w_ctrl Ctrl.C_EOF]
    /\ AsyncSenderMap.senders_ (sv_map sv)
       = AsyncSenderMap.senders_ two_senders ∖ {[1%positive]}.
Proof.
  destruct (async_sender_leaves 10 ideal_env
              (mk_async_sender 1 (Sender.mk 10 false) "10.0.0.2:4568" 3 6 5)
              two_senders
              [w_ordered (Fixture.buffer 3) false;
               w_ordered (Fixture.buffer 4) false;
               w_ordered (Fixture.buffer 5) true;
               w_ordered (Fixture.buffer 6) true;
               w_ctrl Ctrl.C_EOF] (ok tt))
    as (sv & E & Hw & Hm & _).
  - vm_compute. reflexivity.
  - intros e He. discriminate He.
  - exists sv. split; [exact E|]. split; [exact Hw | exact Hm].
Defined.

(** ** The receive address *)



(** ** A stream without a data frame *)

(** X14. [progress] is created with the first data frame.  When the end
    of the stream is the first frame read, as after a [send] that had
    nothing to send, the loop is left with [progress] null and
    [progress->finish()] is called through the null pointer: the thread
    stops there ([Crashed]) with [current_seqno_] undefined, and [ist_end]
    is not called.  A thread gets there in no other way than by a frame
    read while [progress] is null. *)
Theorem eof_first (VER40 : Z) (env : SendEnv) (s : Sender.t)
    (first last preload_start ctrl : Z) (r : Receiver) :
  se_handshake env = ok ctrl ->
  0 <= ctrl ->
  se_write_err env 0%nat = None ->
  (first > last /\ VER40 <= Sender.version_ s) \/ (first = 0 /\ last = 0) ->
  ready_ r = true ->
  interrupted_ r = false ->
  exists ws,
    Sender.send VER40 env s first last preload_start = Some (ws, ok tt)
    /\ Receiver.run r WaitingForSST (in_wakeup :: received ws)
       = Some (set_current_seqno WSREP_SEQNO_UNDEFINED r, Crashed, [])
    /\ forall r0 p0 i r1 evs,
         Receiver.step r0 p0 i = Some (r1, Crashed, evs) ->
         r1 = r0 /\ evs = []
         /\ exists ps act preload unser hres,
             p0 = Streaming ps None
             /\ i = in_recv (recv_frame act preload) unser hres.
Proof.
  intros Hhs Hctrl Hw Hcase Hr Hi.
  exists [w_ctrl Ctrl.C_EOF]. split; [|split].
  - unfold Sender.send, Sender.send_eof. rewrite Hhs, Hw.
    replace (ctrl <? 0) with false by (symmetry; apply Z.ltb_ge; lia).
    destruct Hcase as [[Hgt Hv]|[-> ->]].
    + replace (Sender.version_ s <? VER40) with false
        by (symmetry; apply Z.ltb_ge; lia).
      replace (first >? last) with true
        by (symmetry; rewrite Z.gtb_ltb; apply Z.ltb_lt; lia).
      reflexivity.
    + reflexivity.
  - cbn [received fmap list_fmap Receiver.run]. simpl Receiver.step.
    rewrite Hr, Hi. reflexivity.
  - intros r0 p0 i r1 evs H.
    destruct p0 as [| | | |ps [pg|]| | |];
      destruct i as [[c|]|[c|]| |[act preload|c] unser hres];
      simpl in H; try discriminate;
      unfold Receiver.run_frame in H;
      repeat case_match; simplify_eq;
      (split; [reflexivity|]); (split; [reflexivity|]);
      eexists _, _, _, _, _; split; reflexivity.
Qed.

Lemma eof_first_witness :
  exists ws,
    Sender.send 10 quiet_env (Sender.mk 10 false) 0 0 0 = Some (ws, ok tt)
    /\ Receiver.run (Receiver.ready 1 (Fixture.prepared 1 0)) WaitingForSST
         (in_wakeup :: received ws)
       = Some (set_current_seqno WSREP_SEQNO_UNDEFINED
                 (Receiver.ready 1 (Fixture.prepared 1 0)), Crashed, []).
Proof.
  destruct (eof_first 10 quiet_env (Sender.mk 10 false) 0 0 0 Ctrl.C_OK
              (Receiver.ready 1 (Fixture.prepared 1 0)))
    as (ws & Hs & Hrun & _).
  - reflexivity.
  - vm_compute. discriminate.
  - reflexivity.
  - right. split; reflexivity.
  - reflexivity.
  - vm_compute. reflexivity.
  - exists ws. split; [exact Hs | exact Hrun].
Defined.
